(** * susival-chatbot: the conversation store, the prompt builder, the SQL
      extraction and the request handlers of [index.js], embedded in Rocq.

    JavaScript strings are sequences of UTF-16 code units; they are modelled
    as [list N].  The process-wide [conversationHistory] Map is a
    [gmap] from conversation identifiers to arrays of turns.  Functions
    that read or write the Map, or that may throw, live in a small
    state-and-exception monad [M].

    A request is run from its first statement to its last: what the model
    and the warehouse answer, and what the clock shows, are given to it as
    an [Outside].  Fields of a request are strings or missing.  The calls
    of [console] write nothing the program reads back and are left out, and
    so is [getAllConversationIds], which nothing calls. *)

From Stdlib Require Import String Ascii NArith QArith.
From stdpp Require Import gmap list fin_maps.

Local Open Scope N_scope.
Local Open Scope list_scope.

(** ** JavaScript strings *)

Module Js.

(** A string value: its UTF-16 code units. *)
Abbreviation jsstring := (list N) (only parsing).

(** A source-code string literal (ASCII only in [index.js]). *)
Definition lit (s : string) : jsstring :=
  List.map N_of_ascii (list_ascii_of_string s).

(** The double-quote character, which the literals below never contain. *)
Definition dquote : jsstring := [34].

(** [Array.prototype.join]: the elements separated by [sep]. *)
Fixpoint join (sep : jsstring) (parts : list jsstring) : jsstring :=
  match parts with
  | [] => []
  | [p] => p
  | p :: rest => p ++ sep ++ join sep rest
  end.

(** ECMAScript WhiteSpace and LineTerminator code points: the ones
    [String.prototype.trim] strips.  All lie in the basic plane, so a
    code unit decides. *)
Definition isWhiteSpace (c : N) : bool :=
  (c =? 0x09) || (c =? 0x0A) || (c =? 0x0B) || (c =? 0x0C) || (c =? 0x0D)
  || (c =? 0x20) || (c =? 0xA0) || (c =? 0x1680)
  || ((0x2000 <=? c) && (c <=? 0x200A))
  || (c =? 0x2028) || (c =? 0x2029) || (c =? 0x202F) || (c =? 0x205F)
  || (c =? 0x3000) || (c =? 0xFEFF).

Fixpoint trimStart (s : jsstring) : jsstring :=
  match s with
  | c :: rest => if isWhiteSpace c then trimStart rest else s
  | [] => []
  end.

Definition trimEnd (s : jsstring) : jsstring :=
  rev (trimStart (rev s)).

(** [String.prototype.trim]. *)
Definition trim (s : jsstring) : jsstring := trimEnd (trimStart s).

(** [s] occurs in [t] as a contiguous substring. *)
Definition contains (s t : jsstring) : Prop :=
  exists pre post, t = pre ++ s ++ post.

End Js.
Import Js.

(** ** Data model *)

(** An entry of a conversation's array:
    [{ role, content, timestamp }]. *)
Record Turn := mkTurn {
  role : jsstring;
  content : jsstring;
  timestamp : jsstring;
}.

(** An entry of [table_schema.json]. *)
Record Column := mkColumn {
  name : jsstring;
  type : jsstring;
}.

Record Table := mkTable {
  datasetName : jsstring;
  tableName : jsstring;
  schema : list Column;
}.

(** The state of [const conversationHistory = new Map()]. *)
Abbreviation Store := (gmap (list N) (list Turn)) (only parsing).

(** A thrown value: an [Error] with its [message]. *)
Record JsError := mkError { error_message : jsstring }.

(** ** The monad of the module: state of the Map, and exceptions *)

Inductive Result (A : Type) : Type :=
| Ok (a : A)
| Throw (e : JsError).
Arguments Ok {A} a.
Arguments Throw {A} e.

Definition M (A : Type) : Type := Store -> Result A * Store.

Definition ret {A} (a : A) : M A := fun s => (Ok a, s).

Definition bind {A B} (m : M A) (k : A -> M B) : M B :=
  fun s =>
    match m s with
    | (Ok a, s') => k a s'
    | (Throw e, s') => (Throw e, s')
    end.

Definition throw {A} (e : JsError) : M A := fun s => (Throw e, s).

(** [try { body } catch (error) { handler }]. *)
Definition try_catch {A} (body : M A) (handler : JsError -> M A) : M A :=
  fun s =>
    match body s with
    | (Ok a, s') => (Ok a, s')
    | (Throw e, s') => handler e s'
    end.

(** [await] of an outside call whose outcome is already known. *)
Definition await {A} (r : Result A) : M A := fun s => (r, s).

(** Reading and writing the Map. *)
Definition Map_has (k : jsstring) : M bool :=
  fun s => (Ok (bool_decide (is_Some (s !! k))), s).

Definition Map_get (k : jsstring) : M (option (list Turn)) :=
  fun s => (Ok (s !! k), s).

Definition Map_set (k : jsstring) (v : list Turn) : M unit :=
  fun s => (Ok tt, <[k := v]> s).

Definition Map_delete (k : jsstring) : M unit :=
  fun s => (Ok tt, delete k s).

Declare Scope js_scope.
Delimit Scope js_scope with js.
Notation "'let*' x ':=' m 'in' k" := (bind m (fun x => k))
  (at level 10, x name, m at level 100, k at level 200) : js_scope.
Notation "m ';;' k" := (bind m (fun _ => k))
  (at level 100, k at level 200, right associativity) : js_scope.
Local Open Scope js_scope.

(** The value a computation returns and the Map it leaves. *)
Definition result_of {A} (m : M A) (s : Store) : Result A := fst (m s).
Definition store_after {A} (m : M A) (s : Store) : Store := snd (m s).

(** ** The conversation store (index.js, lines 35-60) *)

(** [history.splice(0, n)]: removes the first [n] elements in place. *)
Definition splice0 {A} (n : nat) (history : list A) : list A := drop n history.

(** [conversationHistory.get(conversationId) || []]: an array is truthy,
    [undefined] is not. *)
Definition getConversationHistory (conversationId : jsstring)
  : M (list Turn) :=
  let* h := Map_get conversationId in
  ret (match h with Some history => history | None => [] end).

(** [now] is the value of [new Date().toISOString()] at the call.  The
    [get] of line 46 follows a [set] of the same key or a successful [has],
    so its [undefined] branch is never taken. *)
Definition addToConversationHistory
    (conversationId role content now : jsstring) : M unit :=
  let* present := Map_has conversationId in
  (if negb present then Map_set conversationId [] else ret tt) ;;
  let* h := Map_get conversationId in
  let history := match h with Some a => a | None => [] end in
  let history := history ++ [mkTurn role content now] in
  let history :=
    if (10 <? length history)%nat
    then splice0 (length history - 10) history
    else history in
  Map_set conversationId history.

Definition clearConversationHistory (conversationId : jsstring) : M unit :=
  Map_delete conversationId.

(** ** SQL extraction (index.js, lines 197-198) *)

Module Regex.

(** Canonicalize of a case-insensitive, non-unicode pattern, on ASCII.
    A code unit of 128 or more never canonicalizes to an ASCII one, so
    against the ASCII pattern below it matches nothing but itself. *)
Definition canonicalize (c : N) : N :=
  if (97 <=? c) && (c <=? 122) then c - 32 else c.

(** The pattern characters [pat] at the head of [s]; the rest of [s]. *)
Fixpoint literal (pat s : jsstring) : option jsstring :=
  match pat with
  | [] => Some s
  | p :: pat' =>
      match s with
      | c :: s' =>
          if canonicalize p =? canonicalize c then literal pat' s' else None
      | [] => None
      end
  end.

(** The lazy group [([\s\S]*?)] followed by the literal [pat]: the
    shortest run of arbitrary code units after which [pat] matches. *)
Fixpoint lazyThen (pat s : jsstring) : option jsstring :=
  match literal pat s with
  | Some _ => Some []
  | None =>
      match s with
      | c :: s' => cons c <$> lazyThen pat s'
      | [] => None
      end
  end.

Definition fence : jsstring := lit "```".
Definition opening : jsstring := lit "```sql" ++ [10].

(** The whole pattern anchored at the head of [s]: capture group 1. *)
Definition matchHere (s : jsstring) : option jsstring :=
  match literal opening s with
  | Some rest => lazyThen fence rest
  | None => None
  end.

(** [s.match(/```sql\n([\s\S]*?)```/i)]: the leftmost start index at
    which the pattern matches; [None] is [null]. *)
Fixpoint sqlMatch (s : jsstring) : option jsstring :=
  match matchHere s with
  | Some group1 => Some group1
  | None =>
      match s with
      | _ :: s' => sqlMatch s'
      | [] => None
      end
  end.

End Regex.

(** [sqlMatch ? sqlMatch[1].trim() : geminiText.trim()]. *)
Definition extractSql (geminiText : jsstring) : jsstring :=
  match Regex.sqlMatch geminiText with
  | Some group1 => trim group1
  | None => trim geminiText
  end.

(** ** Requests to the outside services *)

Record GenConfig := mkGenConfig {
  systemInstruction : jsstring;
  temperature : Q;
  maxOutputTokens : N;
}.

Record GenRequest := mkGenRequest {
  model : jsstring;
  contents : jsstring;
  config : option GenConfig;
}.

(** ** Requests and responses of the HTTP handlers *)

(** [{ text }]. *)
Record Message := mkMessage { text : jsstring }.

(** The body of a chat request; [None] is a missing field. *)
Record ChatBody := mkChatBody {
  body_message : option Message;
  body_conversationId : option jsstring;
}.

Record ClearBody := mkClearBody {
  clear_conversationId : option jsstring;
}.

Record HistoryQuery := mkHistoryQuery {
  query_conversationId : option jsstring;
}.

(** What a handler sends with [res.json], after [res.status(500)] for the
    two failures. *)
Inductive Response :=
| ChatReply (text conversationId : jsstring)
| ChatFailure (text : jsstring)
| ClearReply (message conversationId : jsstring)
| HistoryReply (conversationId : jsstring) (history : list Turn)
    (messageCount : nat)
| Failure (error : jsstring).

Definition status (r : Response) : N :=
  match r with
  | ChatFailure _ | Failure _ => 500
  | _ => 200
  end.

(** ** Prompt text *)

Definition rulesAndExamples : jsstring :=
  lit "

    ### Rules:

    1. Return only the SQL code, without any explanations or additional text.
    2. The query must be 100% compatible with BigQuery Standard SQL.
    3. If the user's question is unclear or lacks context, generate the most generic SQL that still makes sense, selecting the most relevant table.
    4. Always limit the results to a maximum of 100 rows using `LIMIT 100` if there is no natural filter.
    5. Always include the fully qualified table name (e.g., `project.dataset.table`) in the FROM clause.
    6. Consider the conversation context when interpreting the current question. If the user refers to previous results or asks follow-up questions, use that context to build more relevant queries.

    ### Examples:

    #### Example 1 (using monthly_sales):

    **Question:** "
  ++ dquote ++
  lit "How much did we sell in total last month?"
  ++ dquote ++
  lit "

    **SQL Answer:**

    ```sql
    SELECT SUM(total_sale) AS total_sales
    FROM `project_id.my_dataset.monthly_sales`
    WHERE EXTRACT(YEAR FROM date) = EXTRACT(YEAR FROM CURRENT_DATE())
    AND EXTRACT(MONTH FROM date) = EXTRACT(MONTH FROM DATE_SUB(CURRENT_DATE(), INTERVAL 1 MONTH));
    ```

    ---

    #### Example 2 (using monthly_sales):

    **Question:** "
  ++ dquote ++
  lit "Show me sales by region for this year."
  ++ dquote ++
  lit "

    **SQL Answer:**

    ```sql
    SELECT region, SUM(total_sale) AS total_sales
    FROM `project_id.my_dataset.monthly_sales`
    WHERE EXTRACT(YEAR FROM date) = EXTRACT(YEAR FROM CURRENT_DATE())
    GROUP BY region;
    ```

    ---

    #### Example 3 (using customer_data):

    **Question:** "
  ++ dquote ++
  lit "List all customers registered in 2023."
  ++ dquote ++
  lit "

    **SQL Answer:**

    ```sql
    SELECT customer_id, name, email
    FROM `project_id.my_dataset.customer_data`
    WHERE EXTRACT(YEAR FROM registration_date) = 2023
    LIMIT 100;
    ```

    ---

    Now, convert the following question into BigQuery SQL following the same format:

    **Question:** "
  ++ dquote.

Section Program.

(** [process.env] and [table_schema.json], read once at start-up. *)
Variables PROJECT_ID GEMINI_MODEL AGENT_NAME : jsstring.
Variable allTableSchemas : list Table.

(** Rows of a query result, and [JSON.stringify] on them. *)
Variable Rows : Type.
Variable JSON_stringify : Rows -> jsstring.

(** The message of the TypeError thrown by a property read on
    [undefined]. *)
Variable typeErrorMessage : jsstring.

(** What the outside answers during one request:
    [generateContent req] is the text of the first part of the first
    candidate of the reply to [req], or the failure of the call or of
    that property chain; [bigquery_query sql] is the rows of the query,
    or its failure; [clock k] is the instant of the request's [k]-th
    [new Date()]. *)
Record Outside := mkOutside {
  generateContent : GenRequest -> Result jsstring;
  bigquery_query : jsstring -> Result Rows;
  clock : nat -> jsstring;
}.

Definition systemPrompt : jsstring :=
  lit "You are a data expert assistant called " ++ AGENT_NAME ++
  lit ". Your job is to convert user questions written in natural language into SQL queries for BigQuery. You must follow the rules and use the provided table schemas to generate the SQL queries. You must select the most appropriate table based on the user's question.".

(** ** The prompt builder (index.js, lines 91-183) *)

Definition nl : jsstring := [10].

Definition renderColumn (col : Column) : jsstring :=
  lit "*   " ++ name col ++ lit " (" ++ type col ++ lit ")".

Definition schemaString (table : Table) : jsstring :=
  join (nl ++ lit "    ") (List.map renderColumn (schema table)).

Definition qualifiedName (table : Table) : jsstring :=
  PROJECT_ID ++ lit "." ++ datasetName table ++ lit "." ++ tableName table.

Definition renderTable (table : Table) : jsstring :=
  nl ++ lit "    Table: `" ++ qualifiedName table ++ lit "`" ++ nl ++
  nl ++ lit "    Table schema:" ++
  nl ++ lit "    " ++ schemaString table ++
  nl ++ lit "    ".

Definition allSchemasString : jsstring :=
  join nl (List.map renderTable allTableSchemas).

(** [msg.role === 'user' ? 'User' : 'Assistant'], then the content. *)
Definition renderTurn (msg : Turn) : jsstring :=
  (if decide (role msg = lit "user") then lit "User" else lit "Assistant")
  ++ lit ": " ++ content msg.

Definition conversationContext (history : list Turn) : jsstring :=
  if (0 <? length history)%nat then
    nl ++ lit "    ### Previous Conversation Context:" ++
    nl ++ lit "    " ++ join nl (List.map renderTurn history) ++
    nl ++ lit "    " ++
    nl ++ lit "    ---" ++
    nl ++ lit "    "
  else [].

Definition buildPrompt (messageText conversationId : jsstring)
  : M jsstring :=
  let* history := getConversationHistory conversationId in
  ret (nl ++ lit "    You must use one of the following tables as the data source:" ++
       nl ++ lit "    " ++ allSchemasString ++
       nl ++
       nl ++ lit "    " ++ conversationContext history ++
       rulesAndExamples ++ messageText ++ dquote ++ nl ++
       nl ++ lit "    **SQL Answer:**" ++
       nl).

(** ** The pipeline (index.js, lines 67-87 and 185-238) *)

Variable out : Outside.

Definition getSQLFromGemini (promptText : jsstring) : M jsstring :=
  let* geminiText :=
    await (generateContent out
             (mkGenRequest GEMINI_MODEL promptText
                (Some (mkGenConfig systemPrompt (2 # 10) 1024)))) in
  ret (extractSql geminiText).

Definition runBigQuery (sql : jsstring) : M Rows :=
  await (bigquery_query out sql).

Definition formatBigQueryResult (question : jsstring) (rows : Rows)
  : M jsstring :=
  let prompt :=
    lit "
  You are " ++ AGENT_NAME ++
 lit ", a data analysis assistant.

  Your task is to interpret and translate the result of an SQL query executed in BigQuery into clear natural language.

  You will receive two inputs:

  1. The original question asked by the user in natural language.
  2. The result of the SQL query, provided as JSON (with rows and columns).

  Your response must:

  - Be clear and concise.
  - Answer the user's original question directly, based on the data in the SQL result.
  - Avoid technical language or SQL references.
  - Do not explain how the SQL query was built, only interpret the result.

  ---

  ***USER'S ORIGINAL QUESTION***
  " ++ question ++ nl ++
    nl ++ lit "  ***SQL QUERY RESULT (JSON)***" ++
    nl ++ lit "  " ++ JSON_stringify rows ++
    nl in
  await (generateContent out (mkGenRequest GEMINI_MODEL prompt None)).

Definition processMessage (messageText conversationId : jsstring)
  : M jsstring :=
  addToConversationHistory conversationId (lit "user") messageText
    (clock out 0) ;;
  let* geminiPrompt := buildPrompt messageText conversationId in
  let* sqlQuery := getSQLFromGemini geminiPrompt in
  let* bigQueryResult := runBigQuery sqlQuery in
  let* formattedResponse := formatBigQueryResult messageText bigQueryResult in
  addToConversationHistory conversationId (lit "assistant")
    formattedResponse (clock out 1) ;;
  ret formattedResponse.

(** ** The HTTP handlers (index.js, lines 22-33 and 240-276) *)

(** [x || 'default'] on a field that is a string or missing:
    [undefined] and the empty string are falsy. *)
Definition or_default (x : option jsstring) : jsstring :=
  match x with
  | Some (c :: rest) => c :: rest
  | Some [] => lit "default"
  | None => lit "default"
  end.

(** [req.body.message.text]: a read of [text] on a missing [message]
    throws. *)
Definition read_message_text (b : ChatBody) : M jsstring :=
  match body_message b with
  | Some m => ret (text m)
  | None => throw (mkError typeErrorMessage)
  end.

Definition chatBot (body : ChatBody) : M Response :=
  try_catch
    (let* messageText := read_message_text body in
     let conversationId := or_default (body_conversationId body) in
     let* replyText := processMessage messageText conversationId in
     ret (ChatReply replyText conversationId))
    (fun error =>
       ret (ChatFailure
              (lit "An error occurred while processing your request: "
               ++ error_message error))).

Definition clearConversation (body : ClearBody) : M Response :=
  try_catch
    (let conversationId := or_default (clear_conversationId body) in
     clearConversationHistory conversationId ;;
     ret (ClearReply
            (lit "Conversation history cleared for ID: " ++ conversationId)
            conversationId))
    (fun error =>
       ret (Failure
              (lit "An error occurred while clearing conversation: "
               ++ error_message error))).

Definition getConversationHistory_endpoint (query : HistoryQuery)
  : M Response :=
  try_catch
    (let conversationId := or_default (query_conversationId query) in
     let* history := getConversationHistory conversationId in
     ret (HistoryReply conversationId history (length history)))
    (fun error =>
       ret (Failure
              (lit "An error occurred while getting conversation history: "
               ++ error_message error))).

End Program.

(** ** Sequences of mutations of the store *)

(** A mutation of the Map: one call of [addToConversationHistory] or of
    [clearConversationHistory]. *)
Inductive Op :=
| Append (conversationId role content now : jsstring)
| Clear (conversationId : jsstring).

Definition run_op (op : Op) : M unit :=
  match op with
  | Append conversationId role content now =>
      addToConversationHistory conversationId role content now
  | Clear conversationId => clearConversationHistory conversationId
  end.

Fixpoint run_ops (ops : list Op) : M unit :=
  match ops with
  | [] => ret tt
  | op :: rest => run_op op ;; run_ops rest
  end.

(** The turns that [ops] append to [conversationId], oldest first. *)
Fixpoint appended (conversationId : jsstring) (ops : list Op) : list Turn :=
  match ops with
  | [] => []
  | Append id role content now :: rest =>
      if decide (id = conversationId)
      then mkTurn role content now :: appended conversationId rest
      else appended conversationId rest
  | Clear _ :: rest => appended conversationId rest
  end.

(** The [n] last elements of [l], in the order of [l]. *)
Definition keep_last {A} (n : nat) (l : list A) : list A :=
  drop (length l - n) l.

(** The array stored for [id], or the empty one. *)
Definition stored (s : Store) (id : jsstring) : list Turn :=
  default [] (s !! id).

(** ** Fenced blocks in a reply *)

(** The spellings of the tag [sql], in any letter case. *)
Definition sql_tags : list jsstring :=
  [lit "sql"; lit "sqL"; lit "sQl"; lit "sQL";
   lit "Sql"; lit "SqL"; lit "SQl"; lit "SQL"].

(** The opening line of a fenced block tagged [tag]: the fence, the tag
    and a line feed. *)
Definition opening_line (tag : jsstring) : jsstring :=
  Regex.fence ++ tag ++ [10].

(** [pat] occurs in [s] at index [i]. *)
Definition occurs_at (pat s : jsstring) (i : nat) : Prop :=
  pat `prefix_of` drop i s.

(** ** Fenced blocks as a text has them *)



(** ** Sequences of requests *)

(** The conversation a mutation works on. *)
Definition target (op : Op) : jsstring :=
  match op with
  | Append conversationId _ _ _ => conversationId
  | Clear conversationId => conversationId
  end.

(** The two appends of a chat request that succeeds. *)
Definition exchange (conversationId : jsstring)
    (x : jsstring * jsstring * jsstring * jsstring) : list Op :=
  let '(question, asked, answer, answered) := x in
  [Append conversationId (lit "user") question asked;
   Append conversationId (lit "assistant") answer answered].

(** Neighbouring turns are one of the user and one of the assistant. *)
Fixpoint alternates (history : list Turn) : Prop :=
  match history with
  | a :: (b :: _) as rest =>
      ((role a = lit "user" /\ role b = lit "assistant")
       \/ (role a = lit "assistant" /\ role b = lit "user"))
      /\ alternates rest
  | _ => True
  end.

Section Server.

Context (PROJECT_ID GEMINI_MODEL AGENT_NAME : jsstring).
Context (allTableSchemas : list Table).
Context (Rows : Type) (JSON_stringify : Rows -> jsstring).
Context (typeErrorMessage : jsstring).

(** A request to one of the three exported handlers; a chat request comes
    with what the outside answers while it runs. *)
Inductive Request :=
| PostChat (out : Outside Rows) (body : ChatBody)
| PostClear (body : ClearBody)
| GetHistory (query : HistoryQuery).

Definition handle (req : Request) : M Response :=
  match req with
  | PostChat out body =>
      chatBot PROJECT_ID GEMINI_MODEL AGENT_NAME allTableSchemas Rows
        JSON_stringify typeErrorMessage out body
  | PostClear body => clearConversation body
  | GetHistory query => getConversationHistory_endpoint query
  end.

(** The conversation a request names. *)
Definition conversation_of (req : Request) : jsstring :=
  match req with
  | PostChat _ body => or_default (body_conversationId body)
  | PostClear body => or_default (clear_conversationId body)
  | GetHistory query => or_default (query_conversationId query)
  end.

(** Requests served one after the other, each to its end. *)
Fixpoint serve (reqs : list Request) : M (list Response) :=
  match reqs with
  | [] => ret []
  | req :: rest =>
      let* response := handle req in
      let* responses := serve rest in
      ret (response :: responses)
  end.

End Server.

(** ** Sample inputs *)

Module Sample.

Definition id : jsstring := lit "c1".

Definition turn (k : N) : Op :=
  Append id (lit "user") (lit "question " ++ [48 + k])
    (lit "2024-01-15T10:30:0" ++ [48 + k] ++ lit ".000Z").

(** Twelve appends to [id], among an append to and a clear of another
    conversation. *)
Definition ops : list Op :=
  [turn 0; turn 1; Append (lit "c2") (lit "user") (lit "hello") (lit "t");
   turn 2; turn 3; turn 4; turn 5; Clear (lit "c2");
   turn 6; turn 7; turn 8; turn 9; turn 0; turn 1].

Definition catalog : list Table :=
  [mkTable (lit "sales") (lit "monthly_sales")
     [mkColumn (lit "date") (lit "DATE");
      mkColumn (lit "region") (lit "STRING");
      mkColumn (lit "total_sale") (lit "FLOAT64")]].

Definition dialogue : list Op :=
  [Append id (lit "user") (lit "How much did we sell last month?") (lit "t0");
   Append id (lit "assistant") (lit "45230 in total.") (lit "t1")].

(** A reply with a fenced block between two lines of prose, and one
    without any. *)
Definition fenced_reply : jsstring :=
  lit "Here you go:" ++ [10] ++
  lit "```SQL" ++ [10] ++
  lit "  SELECT 1" ++ [10] ++
  lit "```" ++ [10] ++
  lit "Done.".


(** A model that always answers with a fenced query, and a warehouse
    that always fails. *)
Definition failing_warehouse : Outside unit :=
  mkOutside unit
    (fun _ => Ok fenced_reply)
    (fun _ => Throw (mkError (lit "Not found: Table")))
    (fun k => lit "t" ++ [48 + N.of_nat k]).

End Sample.

(** ** More sample inputs *)

Module More.

(** A fenced block with the line ends of a DOS text. *)
Definition crlf_reply : jsstring :=
  lit "```sql" ++ [13; 10] ++ lit "SELECT 1" ++ [13; 10] ++ lit "```".

(** A model that answers the request with a configuration by a fenced
    query and the other one by a sentence, and a warehouse that returns
    rows. *)
Definition answering : Outside unit :=
  mkOutside unit
    (fun req =>
       match config req with
       | Some _ => Ok Sample.fenced_reply
       | None => Ok (lit "45230 in total.")
       end)
    (fun _ => Ok tt)
    (fun k => lit "t" ++ [48 + N.of_nat k]).

(** A model that is out of quota. *)
Definition silent : Outside unit :=
  mkOutside unit
    (fun _ => Throw (mkError (lit "Quota exceeded")))
    (fun _ => Ok tt)
    (fun k => lit "t" ++ [48 + N.of_nat k]).

Definition question : ChatBody :=
  mkChatBody (Some (mkMessage (lit "How much did we sell last month?")))
    (Some Sample.id).

End More.

(** * Properties *)

(** ** The monadic operations, run *)

Lemma getConversationHistory_run (s : Store) (id : jsstring) :
  getConversationHistory id s = (Ok (stored s id), s).
Proof.
  unfold getConversationHistory, bind, Map_get, ret, stored.
  destruct (s !! id); reflexivity.
Qed.

Lemma keep_last_short {A} (n : nat) (l : list A) :
  (length l <= n)%nat -> keep_last n l = l.
Proof.
  intros Hle. unfold keep_last.
  replace (length l - n)%nat with 0%nat by lia. reflexivity.
Qed.

Lemma keep_last_length {A} (n : nat) (l : list A) :
  length (keep_last n l) = Nat.min (length l) n.
Proof. unfold keep_last. rewrite length_drop. lia. Qed.

Lemma keep_last_absorb {A} (n : nat) (l x : list A) :
  keep_last n (keep_last n l ++ x) = keep_last n (l ++ x).
Proof.
  destruct (decide (length l <= n)%nat) as [Hle | Hgt].
  - rewrite (keep_last_short n l Hle). reflexivity.
  - unfold keep_last.
    rewrite !length_app, length_drop, !drop_app, drop_drop, !length_drop.
    f_equal; f_equal; lia.
Qed.

Lemma keep_last_snoc {A} (n : nat) (l : list A) (x : A) :
  (0 < n)%nat -> keep_last n (l ++ [x]) = keep_last (n - 1) l ++ [x].
Proof.
  intros Hn. unfold keep_last.
  rewrite length_app, drop_app. cbn [length].
  replace (length l + 1 - n)%nat with (length l - (n - 1))%nat by lia.
  replace (length l - (n - 1) - length l)%nat with 0%nat by lia.
  reflexivity.
Qed.

Lemma addToConversationHistory_run (s : Store) (id r c t : jsstring) :
  addToConversationHistory id r c t s
  = (Ok tt, <[id := keep_last 10 (stored s id ++ [mkTurn r c t])]> s).
Proof.
  assert (Hsplice : forall h : list Turn,
             (if (10 <? length h)%nat
              then splice0 (length h - 10) h else h) = keep_last 10 h).
  { intros h. unfold splice0, keep_last.
    destruct (Nat.ltb_spec 10 (length h)) as [Hlt | Hge]; [reflexivity |].
    replace (length h - 10)%nat with 0%nat by lia. reflexivity. }
  unfold addToConversationHistory, bind, Map_has, Map_get, Map_set, ret, stored.
  destruct (s !! id) as [h |] eqn:Hid; cbn -[Nat.ltb Nat.sub keep_last].
  - rewrite Hid, Hsplice. reflexivity.
  - rewrite lookup_insert_eq, Hsplice, insert_insert_eq. reflexivity.
Qed.

Lemma clearConversationHistory_run (s : Store) (id : jsstring) :
  clearConversationHistory id s = (Ok tt, delete id s).
Proof. reflexivity. Qed.

Lemma stored_insert (s : Store) (id id' : jsstring) (h : list Turn) :
  stored (<[id := h]> s) id' = if decide (id = id') then h else stored s id'.
Proof. unfold stored. rewrite lookup_insert. destruct (decide _); reflexivity. Qed.

Lemma stored_delete (s : Store) (id id' : jsstring) :
  stored (delete id s) id' = if decide (id = id') then [] else stored s id'.
Proof. unfold stored. rewrite lookup_delete. destruct (decide _); reflexivity. Qed.

Lemma run_op_run (op : Op) (s : Store) :
  exists s', run_op op s = (Ok tt, s').
Proof.
  destruct op; cbn [run_op].
  - rewrite addToConversationHistory_run. eauto.
  - rewrite clearConversationHistory_run. eauto.
Qed.

Lemma run_ops_cons (op : Op) (ops : list Op) (s : Store) :
  run_ops (op :: ops) s = run_ops ops (store_after (run_op op) s).
Proof.
  cbn [run_ops]. unfold bind, store_after.
  destruct (run_op_run op s) as [s' ->]. reflexivity.
Qed.

Lemma run_ops_ok (ops : list Op) (s : Store) :
  result_of (run_ops ops) s = Ok tt.
Proof.
  revert s. induction ops as [| op ops IH]; intros s; [reflexivity |].
  unfold result_of in *. rewrite run_ops_cons. apply IH.
Qed.

(** Without a clear of [id], a run of mutations leaves for [id] the ten
    last of what it held followed by what was appended. *)
Lemma run_ops_stored (ops : list Op) (s : Store) (id : jsstring) :
  (length (stored s id) <= 10)%nat ->
  (forall op, op ∈ ops -> op <> Clear id) ->
  stored (store_after (run_ops ops) s) id
  = keep_last 10 (stored s id ++ appended id ops).
Proof.
  revert s. induction ops as [| op ops IH]; intros s Hlen Hno.
  - cbn. rewrite app_nil_r, keep_last_short; [reflexivity | exact Hlen].
  - unfold store_after in *. rewrite run_ops_cons.
    assert (Hrest : forall o, o ∈ ops -> o <> Clear id).
    { intros o Ho. apply Hno. right. exact Ho. }
    destruct op as [id' r c t | id']; unfold store_after; cbn [run_op appended].
    + rewrite addToConversationHistory_run. cbn [snd].
      rewrite IH; [| | exact Hrest].
      * rewrite stored_insert. destruct (decide (id' = id)) as [-> | Hne].
        -- rewrite keep_last_absorb, <- app_assoc. reflexivity.
        -- reflexivity.
      * rewrite stored_insert. destruct (decide (id' = id)) as [-> | Hne].
        -- rewrite keep_last_length. lia.
        -- exact Hlen.
    + rewrite clearConversationHistory_run. cbn [snd].
      assert (Hne : id' <> id).
      { intros ->. apply (Hno (Clear id)); [left | reflexivity]. }
      rewrite IH; [| | exact Hrest].
      * rewrite stored_delete. destruct (decide (id' = id)); [contradiction | reflexivity].
      * rewrite stored_delete. destruct (decide (id' = id)); [contradiction | exact Hlen].
Qed.

Lemma run_op_bounded (op : Op) (s : Store) :
  (forall id, (length (stored s id) <= 10)%nat) ->
  forall id, (length (stored (store_after (run_op op) s) id) <= 10)%nat.
Proof.
  intros Hs id. unfold store_after.
  destruct op as [id' r c t | id']; cbn [run_op].
  - rewrite addToConversationHistory_run. cbn [snd].
    rewrite stored_insert. destruct (decide (id' = id)); [| apply Hs].
    rewrite keep_last_length. lia.
  - rewrite clearConversationHistory_run. cbn [snd].
    rewrite stored_delete. destruct (decide (id' = id)); [cbn; lia | apply Hs].
Qed.

Lemma run_ops_bounded (ops : list Op) (s : Store) :
  (forall id, (length (stored s id) <= 10)%nat) ->
  forall id, (length (stored (store_after (run_ops ops) s) id) <= 10)%nat.
Proof.
  revert s. induction ops as [| op ops IH]; intros s Hs id.
  - apply Hs.
  - unfold store_after in *. rewrite run_ops_cons.
    apply IH. apply run_op_bounded. exact Hs.
Qed.

Lemma result_of_get (s : Store) (id : jsstring) :
  result_of (getConversationHistory id) s = Ok (stored s id).
Proof. unfold result_of. rewrite getConversationHistory_run. reflexivity. Qed.

(** ** The conversation store *)

(** C1.  Start from a store with no entry for [id] and run any mutations
    that never clear [id]; let [turns] be the [n] turns they append to
    [id], oldest first.  Then [getConversationHistory id] returns [turns]
    without its [n - 10] oldest elements: the [min n 10] most recent
    turns, in the order they were appended. *)
Theorem history_bound (s : Store) (id : jsstring) (ops : list Op) :
  s !! id = None ->
  (forall op, op ∈ ops -> op <> Clear id) ->
  let turns := appended id ops in
  let n := length turns in
  result_of (getConversationHistory id) (store_after (run_ops ops) s)
  = Ok (drop (n - 10) turns)
  /\ length (drop (n - 10) turns) = Nat.min n 10.
Proof.
  intros Habsent Hno turns n.
  assert (Hempty : stored s id = []) by (unfold stored; rewrite Habsent; reflexivity).
  split.
  - rewrite result_of_get, run_ops_stored; [| rewrite Hempty; cbn; lia | exact Hno].
    rewrite Hempty. reflexivity.
  - rewrite length_drop. subst n. lia.
Qed.

(** C4.  If every history of the store holds at most 10 turns (as in the
    empty store), then after any sequence of appends and clears every
    history still holds at most 10 turns; and an append to a history [h]
    of the resulting store leaves [h] followed by the new turn, without
    its [length h + 1 - 10] first elements: what is discarded comes from
    the front, and the new turn is the last one kept. *)
Theorem history_length_invariant (s : Store) (ops : list Op) :
  (forall id h,
      result_of (getConversationHistory id) s = Ok h -> (length h <= 10)%nat) ->
  let s' := store_after (run_ops ops) s in
  (forall id, exists h,
      result_of (getConversationHistory id) s' = Ok h /\ (length h <= 10)%nat)
  /\ (forall id r c t, exists h h',
         result_of (getConversationHistory id) s' = Ok h
         /\ result_of (getConversationHistory id)
              (store_after (addToConversationHistory id r c t) s') = Ok h'
         /\ h' = drop (length h + 1 - 10) (h ++ [mkTurn r c t])
         /\ (length h' <= 10)%nat
         /\ last h' = Some (mkTurn r c t)).
Proof.
  intros Hs s'.
  assert (Hb : forall id, (length (stored s' id) <= 10)%nat).
  { apply run_ops_bounded. intros id. apply (Hs id). apply result_of_get. }
  split.
  - intros id. exists (stored s' id). split; [apply result_of_get | apply Hb].
  - intros id r c t.
    exists (stored s' id), (keep_last 10 (stored s' id ++ [mkTurn r c t])).
    split; [apply result_of_get |]. split.
    { rewrite result_of_get. unfold store_after.
      rewrite addToConversationHistory_run. cbn [snd].
      rewrite stored_insert. destruct (decide (id = id)); [reflexivity | contradiction]. }
    split.
    { unfold keep_last. rewrite length_app. reflexivity. }
    split.
    { rewrite keep_last_length. lia. }
    rewrite keep_last_snoc by lia. apply last_snoc.
Qed.

(** C5.  [clearConversationHistory id] never throws; after it,
    [getConversationHistory id] returns the empty array and the Map has no
    entry for [id]; a second clear changes nothing, and neither does a
    clear of an identifier that has no entry. *)
Theorem clear_idempotent (s : Store) (id : jsstring) :
  let s1 := store_after (clearConversationHistory id) s in
  result_of (clearConversationHistory id) s = Ok tt
  /\ result_of (getConversationHistory id) s1 = Ok []
  /\ s1 !! id = None
  /\ clearConversationHistory id s1 = (Ok tt, s1)
  /\ (s !! id = None -> clearConversationHistory id s = (Ok tt, s)).
Proof.
  intros s1. subst s1. unfold store_after.
  rewrite !clearConversationHistory_run. cbn [fst snd].
  repeat split.
  - rewrite result_of_get, stored_delete.
    destruct (decide (id = id)); [reflexivity | contradiction].
  - apply lookup_delete_eq.
  - f_equal. apply delete_delete_eq.
  - intros Habsent. f_equal. apply delete_id. exact Habsent.
Qed.

(** C9.  [getConversationHistory id] leaves the Map as it found it, and
    returns the array stored for [id], or the empty array when there is
    none. *)
Theorem get_never_mutates (s : Store) (id : jsstring) :
  store_after (getConversationHistory id) s = s
  /\ (s !! id = None -> result_of (getConversationHistory id) s = Ok [])
  /\ (forall h, s !! id = Some h ->
        result_of (getConversationHistory id) s = Ok h).
Proof.
  unfold store_after, result_of. rewrite getConversationHistory_run.
  cbn [fst snd]. unfold stored. repeat split.
  - intros ->. reflexivity.
  - intros h ->. reflexivity.
Qed.

(** ** The pattern of the SQL extraction *)

Section RegexFacts.
Import Regex.

Lemma canonicalize_backtick (c : N) :
  canonicalize 96 = canonicalize c <-> c = 96.
Proof.
  unfold canonicalize. cbn.
  destruct (N.leb_spec 97 c), (N.leb_spec c 122); cbn; lia.
Qed.

Lemma canonicalize_lf (c : N) :
  canonicalize 10 = canonicalize c <-> c = 10.
Proof.
  unfold canonicalize. cbn.
  destruct (N.leb_spec 97 c), (N.leb_spec c 122); cbn; lia.
Qed.

(** A lower-case ASCII letter matches itself and its upper case. *)
Lemma canonicalize_letter (p c : N) :
  97 <= p <= 122 ->
  canonicalize p = canonicalize c <-> c = p \/ c = p - 32.
Proof.
  intros Hp. unfold canonicalize.
  destruct (N.leb_spec 97 p), (N.leb_spec p 122); try lia.
  destruct (N.leb_spec 97 c), (N.leb_spec c 122); cbn; lia.
Qed.

Lemma literal_Some (pat s rest : jsstring) :
  literal pat s = Some rest <->
  exists m, s = m ++ rest
            /\ Forall2 (fun p c => canonicalize p = canonicalize c) pat m.
Proof.
  revert s. induction pat as [| p pat IH]; intros s; cbn [literal].
  - split.
    + intros [= ->]. exists []. split; [reflexivity | constructor].
    + intros (m & -> & Hm). inversion Hm. reflexivity.
  - destruct s as [| c s].
    + split; [discriminate |].
      intros (m & Hs & Hm). inversion Hm; subst. discriminate.
    + destruct (N.eqb_spec (canonicalize p) (canonicalize c)) as [Heq | Hne].
      * rewrite IH. split.
        -- intros (m & -> & Hm). exists (c :: m). split; [reflexivity |].
           constructor; assumption.
        -- intros (m & Hs & Hm). inversion Hm as [| ? c' ? m' Hc Hm']; subst.
           injection Hs as -> ->. exists m'. split; [reflexivity | exact Hm'].
      * split; [discriminate |].
        intros (m & Hs & Hm). inversion Hm as [| ? c' ? m' Hc Hm']; subst.
        injection Hs as -> ->. contradiction.
Qed.

Lemma fence_units : fence = [96; 96; 96].
Proof. reflexivity. Qed.

Lemma opening_units : opening = [96; 96; 96; 115; 113; 108; 10].
Proof. reflexivity. Qed.

Lemma literal_fence (s rest : jsstring) :
  literal fence s = Some rest <-> s = fence ++ rest.
Proof.
  rewrite literal_Some, fence_units. split.
  - intros (m & -> & Hm). f_equal.
    repeat match goal with
           | H : Forall2 _ _ _ |- _ => inversion H; subst; clear H
           end.
    repeat match goal with
           | H : canonicalize 96 = canonicalize _ |- _ =>
               apply canonicalize_backtick in H; subst
           end.
    reflexivity.
  - intros ->. exists [96; 96; 96]. split; [reflexivity |].
    repeat constructor.
Qed.

Lemma literal_opening (s rest : jsstring) :
  literal opening s = Some rest <->
  exists tag, tag ∈ sql_tags /\ s = opening_line tag ++ rest.
Proof.
  rewrite literal_Some, opening_units. split.
  - intros (m & -> & Hm).
    repeat match goal with
           | H : Forall2 _ _ _ |- _ => inversion H; subst; clear H
           end.
    repeat match goal with
           | H : canonicalize 96 = canonicalize _ |- _ =>
               apply canonicalize_backtick in H; subst
           | H : canonicalize 10 = canonicalize _ |- _ =>
               apply canonicalize_lf in H; subst
           | H : canonicalize _ = canonicalize _ |- _ =>
               apply canonicalize_letter in H; [| lia]
           end.
    repeat match goal with
           | H : _ \/ _ |- _ => destruct H; subst
           end;
      match goal with
      | |- exists tag, _ /\ (_ :: _ :: _ :: ?x :: ?y :: ?z :: _) ++ _ = _ =>
          exists [x; y; z]
      end;
      (split; [vm_compute; set_solver | reflexivity]).
  - intros (tag & Htag & ->).
    exists (opening_line tag). split; [reflexivity |].
    unfold sql_tags in Htag.
    repeat (apply elem_of_cons in Htag as [-> | Htag]);
      [.. | apply elem_of_nil in Htag; contradiction];
      repeat constructor.
Qed.

Lemma occurs_at_0 (pat s : jsstring) :
  occurs_at pat s 0 <-> exists rest, s = pat ++ rest.
Proof. unfold occurs_at. rewrite drop_0. reflexivity. Qed.

Lemma occurs_at_S (pat : jsstring) (c : N) (s : jsstring) (i : nat) :
  occurs_at pat (c :: s) (S i) <-> occurs_at pat s i.
Proof. reflexivity. Qed.


Lemma lazyThen_Some (s cap : jsstring) :
  lazyThen fence s = Some cap -> exists post, s = cap ++ fence ++ post.
Proof.
  revert cap. induction s as [| c s IH]; intros cap.
  - cbn [lazyThen]. destruct (literal fence []) eqn:Hlit; [| discriminate].
    apply literal_fence in Hlit. discriminate.
  - cbn [lazyThen].
    destruct (literal fence (c :: s)) as [r |] eqn:Hlit.
    + intros [= <-]. apply literal_fence in Hlit. exists r. exact Hlit.
    + destruct (lazyThen fence s) as [cap' |]; [| discriminate].
      intros [= <-]. destruct (IH cap' eq_refl) as [post ->].
      exists post. reflexivity.
Qed.


Lemma sqlMatch_Some (s group1 : jsstring) :
  sqlMatch s = Some group1 ->
  exists pre tag post,
    tag ∈ sql_tags /\ s = pre ++ opening_line tag ++ group1 ++ fence ++ post.
Proof.
  assert (Hhere : forall s, matchHere s = Some group1 ->
            exists tag post,
              tag ∈ sql_tags /\ s = opening_line tag ++ group1 ++ fence ++ post).
  { intros t. unfold matchHere.
    destruct (literal opening t) as [r |] eqn:Hlit; [| discriminate].
    intros Hlazy. apply literal_opening in Hlit as (tag & Htag & ->).
    apply lazyThen_Some in Hlazy as [post ->]. eauto. }
  induction s as [| c s IH]; cbn [sqlMatch].
  - destruct (matchHere []) eqn:Hm; [| discriminate].
    intros [= ->]. destruct (Hhere _ Hm) as (tag & post & Htag & Heq).
    exists [], tag, post. split; assumption.
  - destruct (matchHere (c :: s)) eqn:Hm.
    + intros [= ->]. destruct (Hhere _ Hm) as (tag & post & Htag & Heq).
      exists [], tag, post. split; assumption.
    + intros Hs. destruct (IH Hs) as (pre & tag & post & Htag & ->).
      exists (c :: pre), tag, post. split; [exact Htag | reflexivity].
Qed.

End RegexFacts.

(** ** Trimming *)

Lemma trimStart_spec (s : jsstring) :
  exists ws,
    s = ws ++ trimStart s
    /\ Forall (fun c => isWhiteSpace c = true) ws
    /\ (forall c rest, trimStart s = c :: rest -> isWhiteSpace c = false).
Proof.
  induction s as [| c s (ws & Hs & Hws & Hhead)]; cbn [trimStart].
  - exists []. repeat split; [constructor | discriminate].
  - destruct (isWhiteSpace c) eqn:Hc.
    + exists (c :: ws). split; [cbn; f_equal; exact Hs |].
      split; [constructor; assumption | exact Hhead].
    + exists []. split; [reflexivity |]. split; [constructor |].
      intros c' rest [= <- _]. exact Hc.
Qed.

(** [trim s] is [s] without a run of white space at each end, and neither
    starts nor ends with white space. *)
Lemma trim_spec (s : jsstring) :
  exists before after,
    s = before ++ trim s ++ after
    /\ Forall (fun c => isWhiteSpace c = true) before
    /\ Forall (fun c => isWhiteSpace c = true) after
    /\ (forall c rest, trim s = c :: rest -> isWhiteSpace c = false)
    /\ (forall c rest, trim s = rest ++ [c] -> isWhiteSpace c = false).
Proof.
  destruct (trimStart_spec s) as (before & Hs & Hbefore & Hhead).
  destruct (trimStart_spec (rev (trimStart s))) as (after & Hr & Hafter & Hlast).
  assert (Hmid : trimStart s = trim s ++ rev after).
  { unfold trim, trimEnd. rewrite <- rev_app_distr, <- Hr, rev_involutive.
    reflexivity. }
  exists before, (rev after). split; [rewrite <- Hmid; exact Hs |].
  split; [exact Hbefore |].
  split; [apply Forall_rev; exact Hafter |]. split.
  - intros c rest Htrim. rewrite Htrim in Hmid. apply (Hhead c _ Hmid).
  - intros c rest Htrim. apply (Hlast c (rev rest)).
    unfold trim, trimEnd in Htrim.
    apply (f_equal (@rev N)) in Htrim.
    rewrite rev_involutive, rev_app_distr in Htrim. exact Htrim.
Qed.

(** ** SQL extraction *)


(** ** Substrings *)

Lemma contains_middle (pre x post : jsstring) : contains x (pre ++ x ++ post).
Proof. exists pre, post. reflexivity. Qed.

Lemma contains_trans (x y z : jsstring) :
  contains x y -> contains y z -> contains x z.
Proof.
  intros (p1 & q1 & ->) (p2 & q2 & ->).
  exists (p2 ++ p1), (q1 ++ q2). rewrite <- !app_assoc. reflexivity.
Qed.

Lemma contains_join (sep x : jsstring) (parts : list jsstring) :
  x ∈ parts -> contains x (join sep parts).
Proof.
  induction parts as [| p parts IH]; intros Hin.
  - apply elem_of_nil in Hin. contradiction.
  - apply elem_of_cons in Hin as [-> | Hin].
    + destruct parts as [| q parts]; cbn [join].
      * exists [], []. rewrite app_nil_r. reflexivity.
      * exists [], (sep ++ join sep (q :: parts)). reflexivity.
    + destruct parts as [| q parts]; [apply elem_of_nil in Hin; contradiction |].
      cbn [join]. apply (contains_trans _ _ _ (IH Hin)).
      exists (p ++ sep), []. rewrite app_nil_r, <- app_assoc. reflexivity.
Qed.

(** ** Running the monad *)

Lemma bind_ok {A B} (m : M A) (k : A -> M B) (s s' : Store) (a : A) :
  m s = (Ok a, s') -> bind m k s = k a s'.
Proof. intros H. unfold bind. rewrite H. reflexivity. Qed.

Lemma bind_throw {A B} (m : M A) (k : A -> M B) (s s' : Store) (e : JsError) :
  m s = (Throw e, s') -> bind m k s = (Throw e, s').
Proof. intros H. unfold bind. rewrite H. reflexivity. Qed.

(** ** The prompt builder and the pipeline *)

Section ProgramFacts.

Context (PROJECT_ID GEMINI_MODEL AGENT_NAME : jsstring).
Context (allTableSchemas : list Table).
Context {Rows : Type} (JSON_stringify : Rows -> jsstring).
Context (typeErrorMessage : jsstring).

Local Abbreviation buildPrompt_ := (buildPrompt PROJECT_ID allTableSchemas).
Local Abbreviation getSQLFromGemini_ :=
  (getSQLFromGemini GEMINI_MODEL AGENT_NAME Rows).
Local Abbreviation runBigQuery_ := (runBigQuery Rows).
Local Abbreviation formatBigQueryResult_ :=
  (formatBigQueryResult GEMINI_MODEL AGENT_NAME Rows JSON_stringify).
Local Abbreviation processMessage_ :=
  (processMessage PROJECT_ID GEMINI_MODEL AGENT_NAME allTableSchemas
     Rows JSON_stringify).
Local Abbreviation chatBot_ :=
  (chatBot PROJECT_ID GEMINI_MODEL AGENT_NAME allTableSchemas
     Rows JSON_stringify typeErrorMessage).

Lemma buildPrompt_run (messageText conversationId : jsstring) (s : Store) :
  exists prompt,
    buildPrompt_ messageText conversationId s = (Ok prompt, s)
    /\ prompt =
         nl ++ lit "    You must use one of the following tables as the data source:" ++
         nl ++ lit "    " ++ allSchemasString PROJECT_ID allTableSchemas ++
         nl ++
         nl ++ lit "    " ++ conversationContext (stored s conversationId) ++
         rulesAndExamples ++ messageText ++ dquote ++ nl ++
         nl ++ lit "    **SQL Answer:**" ++
         nl.
Proof.
  eexists. split; [| reflexivity].
  unfold buildPrompt.
  rewrite (bind_ok _ _ _ _ _ (getConversationHistory_run s conversationId)).
  reflexivity.
Qed.

Lemma addToConversationHistory_ok (id r c t : jsstring) (s : Store) :
  addToConversationHistory id r c t s
  = (Ok tt, store_after (addToConversationHistory id r c t) s).
Proof.
  unfold store_after. rewrite addToConversationHistory_run. reflexivity.
Qed.

Lemma stored_after_add (id r c t : jsstring) (s : Store) :
  stored (store_after (addToConversationHistory id r c t) s) id
  = keep_last 10 (stored s id ++ [mkTurn r c t]).
Proof.
  unfold store_after. rewrite addToConversationHistory_run. cbn [snd].
  rewrite stored_insert. destruct (decide (id = id)); [reflexivity | contradiction].
Qed.

Lemma getSQLFromGemini_run (out : Outside Rows) (promptText : jsstring)
    (s : Store) :
  getSQLFromGemini_ out promptText s
  = (match generateContent Rows out
             (mkGenRequest GEMINI_MODEL promptText
                (Some (mkGenConfig (systemPrompt AGENT_NAME) (2 # 10) 1024)))
     with
     | Ok geminiText => Ok (extractSql geminiText)
     | Throw e => Throw e
     end, s).
Proof.
  unfold getSQLFromGemini, bind, await, ret.
  destruct (generateContent _ _ _); reflexivity.
Qed.

Lemma formatBigQueryResult_run (out : Outside Rows) (question : jsstring)
    (rows : Rows) (s : Store) :
  formatBigQueryResult_ out question rows s
  = (result_of (formatBigQueryResult_ out question rows) s, s).
Proof. reflexivity. Qed.

(** A request appends the user turn, and the assistant turn only when
    every later step succeeds. *)
Lemma processMessage_run (out : Outside Rows) (messageText id : jsstring)
    (s : Store) :
  let s1 := store_after
              (addToConversationHistory id (lit "user") messageText
                 (clock Rows out 0)) s in
  (exists e, processMessage_ out messageText id s = (Throw e, s1))
  \/ (exists answer,
        processMessage_ out messageText id s
        = (Ok answer,
           store_after
             (addToConversationHistory id (lit "assistant") answer
                (clock Rows out 1)) s1)).
Proof.
  intros s1. unfold processMessage.
  rewrite (bind_ok _ _ _ _ _ (addToConversationHistory_ok _ _ _ _ s)).
  fold s1.
  destruct (buildPrompt_run messageText id s1) as (prompt & Hp & _).
  rewrite (bind_ok _ _ _ _ _ Hp).
  pose proof (getSQLFromGemini_run out prompt s1) as Hsql.
  destruct (generateContent _ _ _) as [reply | e] in Hsql.
  2:{ left. exists e. apply (bind_throw _ _ _ _ _ Hsql). }
  rewrite (bind_ok _ _ _ _ _ Hsql).
  assert (Hq : runBigQuery_ out (extractSql reply) s1
               = (bigquery_query Rows out (extractSql reply), s1))
    by reflexivity.
  destruct (bigquery_query _ _ _) as [rows | e] in Hq.
  2:{ left. exists e. apply (bind_throw _ _ _ _ _ Hq). }
  rewrite (bind_ok _ _ _ _ _ Hq).
  pose proof (formatBigQueryResult_run out messageText rows s1) as Hf.
  destruct (result_of _ s1) as [answer | e] in Hf.
  2:{ left. exists e. apply (bind_throw _ _ _ _ _ Hf). }
  rewrite (bind_ok _ _ _ _ _ Hf).
  rewrite (bind_ok _ _ _ _ _ (addToConversationHistory_ok _ _ _ _ s1)).
  right. exists answer. reflexivity.
Qed.

(** C3.  Let [s1] be the store after the user turn is appended, and
    suppose the prompt is built, the model's reply yields [sql], and the
    warehouse query of [sql] fails with [e].  Then [processMessage]
    throws [e] and leaves exactly [s1]: the user turn is the last turn of
    the conversation and no assistant turn follows it.  The chat handler
    answers with status 500 and leaves the same store. *)
Theorem warehouse_failure_keeps_user_turn (out : Outside Rows)
    (messageText conversationId prompt sql : jsstring) (e : JsError)
    (s : Store) :
  let userTurn := mkTurn (lit "user") messageText (clock Rows out 0) in
  let s1 := store_after
              (addToConversationHistory conversationId (lit "user")
                 messageText (clock Rows out 0)) s in
  result_of (buildPrompt_ messageText conversationId) s1 = Ok prompt ->
  result_of (getSQLFromGemini_ out prompt) s1 = Ok sql ->
  result_of (runBigQuery_ out sql) s1 = Throw e ->
  processMessage_ out messageText conversationId s = (Throw e, s1)
  /\ (exists earlier,
        result_of (getConversationHistory conversationId) s1
        = Ok (earlier ++ [userTurn]))
  /\ (forall body,
        body_message body = Some (mkMessage messageText) ->
        or_default (body_conversationId body) = conversationId ->
        exists response,
          chatBot_ out body s = (Ok response, s1)
          /\ status response = 500
          /\ response
             = ChatFailure
                 (lit "An error occurred while processing your request: "
                  ++ error_message e)).
Proof.
  intros userTurn s1 Hprompt Hsql Hquery.
  assert (Hrun : processMessage_ out messageText conversationId s
                 = (Throw e, s1)).
  { unfold processMessage.
    rewrite (bind_ok _ _ _ _ _ (addToConversationHistory_ok _ _ _ _ s)).
    fold s1.
    destruct (buildPrompt_run messageText conversationId s1) as (p & Hp & _).
    unfold result_of in Hprompt. rewrite Hp in Hprompt.
    injection Hprompt as ->.
    rewrite (bind_ok _ _ _ _ _ Hp).
    pose proof (getSQLFromGemini_run out prompt s1) as Hg.
    unfold result_of in Hsql. rewrite Hg in Hsql. cbn [fst] in Hsql.
    rewrite Hsql in Hg. rewrite (bind_ok _ _ _ _ _ Hg).
    apply bind_throw. unfold runBigQuery, await.
    unfold result_of, runBigQuery, await in Hquery. cbn [fst] in Hquery.
    rewrite Hquery. reflexivity. }
  split; [exact Hrun |]. split.
  - exists (keep_last 9 (stored s conversationId)).
    rewrite result_of_get. subst s1. rewrite stored_after_add.
    rewrite keep_last_snoc by lia. reflexivity.
  - intros body Hmsg Hid. eexists. split; [| split; [| reflexivity]].
    + assert (Hread : read_message_text typeErrorMessage body s
                      = (Ok messageText, s))
        by (unfold read_message_text; rewrite Hmsg; reflexivity).
      unfold chatBot, try_catch.
      rewrite (bind_ok _ _ _ _ _ Hread), Hid.
      rewrite (bind_throw _ _ _ _ _ Hrun). reflexivity.
    + reflexivity.
Qed.

(** C6.  The prompt depends on the store and on the conversation
    identifier only through the history [getConversationHistory]
    returns: with the same question, history, catalog and project id,
    two runs return the same prompt, never throw and leave their stores
    untouched.  The builder takes no agent name and no outside service. *)
Theorem buildPrompt_deterministic (question id1 id2 : jsstring)
    (s1 s2 : Store) :
  result_of (getConversationHistory id1) s1
  = result_of (getConversationHistory id2) s2 ->
  exists prompt,
    buildPrompt_ question id1 s1 = (Ok prompt, s1)
    /\ buildPrompt_ question id2 s2 = (Ok prompt, s2).
Proof.
  rewrite !result_of_get. intros [= Hsame].
  destruct (buildPrompt_run question id1 s1) as (p1 & Hp1 & ->).
  destruct (buildPrompt_run question id2 s2) as (p2 & Hp2 & ->).
  eexists. split; [exact Hp1 |]. rewrite Hp2, Hsame. reflexivity.
Qed.

(** C7.  The prompt holds, for every table of the catalog, the line
    with its name qualified as project.dataset.table followed by the list
    of its columns, each as name and type; and, when the history is not
    empty, the turns of the history in their order, one per line, each
    labelled User for the role user and Assistant otherwise. *)
Theorem buildPrompt_renders (question id : jsstring) (s : Store) :
  exists prompt,
    result_of (buildPrompt_ question id) s = Ok prompt
    /\ (forall table,
          table ∈ allTableSchemas ->
          contains
            (lit "    Table: `" ++ PROJECT_ID ++ lit "."
               ++ datasetName table ++ lit "." ++ tableName table
               ++ lit "`" ++ nl
               ++ nl ++ lit "    Table schema:"
               ++ nl ++ lit "    "
               ++ join (nl ++ lit "    ")
                    (List.map
                       (fun col =>
                          lit "*   " ++ name col
                            ++ lit " (" ++ type col ++ lit ")")
                       (schema table)))
            prompt)
    /\ (forall history,
          result_of (getConversationHistory id) s = Ok history ->
          history <> [] ->
          contains
            (join nl
               (List.map
                  (fun msg =>
                     (if decide (role msg = lit "user")
                      then lit "User" else lit "Assistant")
                       ++ lit ": " ++ content msg)
                  history))
            prompt).
Proof.
  destruct (buildPrompt_run question id s) as (prompt & Hrun & Hprompt).
  exists prompt. split; [unfold result_of; rewrite Hrun; reflexivity |].
  split.
  - intros table Hin.
    apply (contains_trans _ (renderTable PROJECT_ID table)).
    { exists nl, (nl ++ lit "    ").
      unfold renderTable, qualifiedName, schemaString, renderColumn.
      rewrite <- !app_assoc. reflexivity. }
    apply (contains_trans _ (allSchemasString PROJECT_ID allTableSchemas)).
    { apply contains_join. apply list_elem_of_In, in_map, list_elem_of_In, Hin. }
    rewrite Hprompt.
    match goal with
    | |- contains ?x (?a ++ ?b ++ ?c ++ ?d ++ ?x ++ ?rest) =>
        exists (a ++ b ++ c ++ d), rest
    end.
    rewrite <- !app_assoc. reflexivity.
  - intros history Hget Hne. rewrite result_of_get in Hget.
    injection Hget as Hstored.
    apply (contains_trans _ (conversationContext history)).
    { unfold conversationContext.
      destruct history as [| msg history]; [contradiction |].
      cbn [length Nat.ltb Nat.leb].
      match goal with
      | |- contains ?x (?a ++ ?b ++ ?c ++ ?d ++ ?x' ++ ?rest) =>
          exists (a ++ b ++ c ++ d), rest
      end.
      rewrite <- !app_assoc. reflexivity. }
    rewrite Hprompt, Hstored.
    match goal with
    | |- contains ?x
           (?a ++ ?b ++ ?c ++ ?d ++ ?e ++ ?f ++ ?g ++ ?h ++ ?x ++ ?rest) =>
        exists (a ++ b ++ c ++ d ++ e ++ f ++ g ++ h), rest
    end.
    rewrite <- !app_assoc. reflexivity.
Qed.

Lemma keep_last_app_short {A} (n : nat) (l x : list A) :
  (length x <= n)%nat ->
  keep_last n (l ++ x) = keep_last (n - length x) l ++ x.
Proof.
  intros Hx. unfold keep_last. rewrite length_app, drop_app.
  replace (length l + length x - n)%nat
    with (length l - (n - length x))%nat by lia.
  replace (length l - (n - length x) - length l)%nat with 0%nat by lia.
  reflexivity.
Qed.

(** What a chat request with a message leaves in its conversation: the
    ten last of the old turns, the user turn and at most one assistant
    turn. *)
Lemma chatBot_stored (out : Outside Rows) (body : ChatBody) (m : Message)
    (s : Store) :
  body_message body = Some m ->
  let id := or_default (body_conversationId body) in
  exists tail,
    (length tail <= 1)%nat
    /\ stored (store_after (chatBot_ out body) s) id
       = keep_last 10
           (stored s id
              ++ mkTurn (lit "user") (text m) (clock Rows out 0) :: tail).
Proof.
  intros Hmsg id.
  assert (Hread : read_message_text typeErrorMessage body s
                  = (Ok (text m), s))
    by (unfold read_message_text; rewrite Hmsg; reflexivity).
  unfold store_after at 1, chatBot, try_catch.
  rewrite (bind_ok _ _ _ _ _ Hread). fold id.
  destruct (processMessage_run out (text m) id s)
    as [[e Hrun] | [answer Hrun]].
  - rewrite (bind_throw _ _ _ _ _ Hrun). cbn [snd ret].
    exists []. split; [cbn; lia |]. apply stored_after_add.
  - rewrite (bind_ok _ _ _ _ _ Hrun). cbn [snd ret].
    exists [mkTurn (lit "assistant") answer (clock Rows out 1)].
    split; [cbn; lia |].
    rewrite !stored_after_add, keep_last_absorb, <- app_assoc. reflexivity.
Qed.

(** C8.  With [conversationId] omitted, each handler works on the
    identifier [default]: the chat handler behaves as with that
    identifier given, the clear handler deletes its entry, the history
    handler returns its history; and after two chat requests that both
    omit it, the user turns of both are in the history of [default],
    the first before the second. *)
Theorem omitted_conversationId_is_default (out1 out2 : Outside Rows)
    (message : option Message) (m1 m2 : Message) (s : Store) :
  chatBot_ out1 (mkChatBody message None)
  = chatBot_ out1 (mkChatBody message (Some (lit "default")))
  /\ clearConversation (mkClearBody None) s
     = (Ok (ClearReply
              (lit "Conversation history cleared for ID: " ++ lit "default")
              (lit "default")),
        store_after (clearConversationHistory (lit "default")) s)
  /\ (exists history,
        result_of (getConversationHistory (lit "default")) s = Ok history
        /\ getConversationHistory_endpoint (mkHistoryQuery None) s
           = (Ok (HistoryReply (lit "default") history (length history)),
              s))
  /\ (let s' :=
        store_after (chatBot_ out2 (mkChatBody (Some m2) None))
          (store_after (chatBot_ out1 (mkChatBody (Some m1) None)) s) in
      exists before between after,
        result_of (getConversationHistory (lit "default")) s'
        = Ok (before
                ++ [mkTurn (lit "user") (text m1) (clock Rows out1 0)]
                ++ between
                ++ [mkTurn (lit "user") (text m2) (clock Rows out2 0)]
                ++ after)).
Proof.
  split; [reflexivity |]. split; [reflexivity |]. split.
  - exists (stored s (lit "default")). split; [apply result_of_get |].
    unfold getConversationHistory_endpoint, try_catch.
    rewrite (bind_ok _ _ _ _ _ (getConversationHistory_run s _)).
    reflexivity.
  - intros s'. rewrite result_of_get. subst s'.
    pose proof (chatBot_stored out2 (mkChatBody (Some m2) None) m2
                  (store_after (chatBot_ out1 (mkChatBody (Some m1) None)) s)
                  eq_refl) as H2.
    pose proof (chatBot_stored out1 (mkChatBody (Some m1) None) m1 s eq_refl)
      as H1.
    cbn [or_default body_conversationId] in H1, H2.
    destruct H2 as (tail2 & Hlen2 & ->). destruct H1 as (tail1 & Hlen1 & ->).
    rewrite keep_last_absorb, <- app_assoc.
    rewrite keep_last_app_short
      by (cbn [length]; rewrite length_app; cbn [length]; lia).
    eexists _, tail1, tail2. f_equal.
Qed.

(** C10.  With [conversationId] equal to the empty string, each handler
    behaves as with [conversationId] omitted, and works on the
    identifier [default]: the clear handler deletes its entry, the
    history handler returns its history, and the chat handler appends
    the user turn to it. *)
Theorem empty_conversationId_is_default (out : Outside Rows)
    (message : option Message) (m : Message) (s : Store) :
  chatBot_ out (mkChatBody message (Some []))
  = chatBot_ out (mkChatBody message None)
  /\ clearConversation (mkClearBody (Some []))
     = clearConversation (mkClearBody None)
  /\ getConversationHistory_endpoint (mkHistoryQuery (Some []))
     = getConversationHistory_endpoint (mkHistoryQuery None)
  /\ clearConversation (mkClearBody (Some [])) s
     = (Ok (ClearReply
              (lit "Conversation history cleared for ID: " ++ lit "default")
              (lit "default")),
        store_after (clearConversationHistory (lit "default")) s)
  /\ (exists history,
        result_of (getConversationHistory (lit "default")) s = Ok history
        /\ getConversationHistory_endpoint (mkHistoryQuery (Some [])) s
           = (Ok (HistoryReply (lit "default") history (length history)),
              s))
  /\ (exists before after,
        result_of (getConversationHistory (lit "default"))
          (store_after (chatBot_ out (mkChatBody (Some m) (Some []))) s)
        = Ok (before
                ++ [mkTurn (lit "user") (text m) (clock Rows out 0)]
                ++ after)).
Proof.
  split; [reflexivity |]. split; [reflexivity |]. split; [reflexivity |].
  split; [reflexivity |]. split.
  - exists (stored s (lit "default")). split; [apply result_of_get |].
    unfold getConversationHistory_endpoint, try_catch.
    rewrite (bind_ok _ _ _ _ _ (getConversationHistory_run s _)).
    reflexivity.
  - rewrite result_of_get.
    pose proof (chatBot_stored out (mkChatBody (Some m) (Some [])) m s
                  eq_refl) as H.
    cbn [or_default body_conversationId] in H.
    destruct H as (tail & Hlen & ->).
    rewrite keep_last_app_short by (cbn [length]; lia).
    eexists _, tail. reflexivity.
Qed.

End ProgramFacts.

(** ** The properties at sample inputs *)

Lemma below_all (P : nat -> Prop) (n : nat) :
  Forall P (seq 0 n) -> forall i, (i < n)%nat -> P i.
Proof.
  intros Hall i Hi. rewrite Forall_forall in Hall.
  apply Hall, elem_of_seq. lia.
Qed.

Lemma history_bound_witness :
  (∅ : gmap (list N) (list Turn)) !! Sample.id = None
  /\ (forall op, op ∈ Sample.ops -> op <> Clear Sample.id)
  /\ result_of (getConversationHistory Sample.id)
       (store_after (run_ops Sample.ops) ∅)
     = Ok (drop 2 (appended Sample.id Sample.ops))
  /\ length (drop 2 (appended Sample.id Sample.ops)) = 10%nat.
Proof.
  assert (H1 : (∅ : gmap (list N) (list Turn)) !! Sample.id = None)
    by apply lookup_empty.
  assert (H2 : forall op, op ∈ Sample.ops -> op <> Clear Sample.id).
  { intros op Hop ->. revert Hop. unfold Sample.ops.
    rewrite !elem_of_cons, elem_of_nil.
    intros H. repeat destruct H as [H | H]; try discriminate H; exact H. }
  split; [exact H1 |]. split; [exact H2 |].
  exact (history_bound ∅ Sample.id Sample.ops H1 H2).
Defined.

Lemma history_length_invariant_witness :
  (forall id h,
      result_of (getConversationHistory id) ∅ = Ok h -> (length h <= 10)%nat)
  /\ (exists h,
        result_of (getConversationHistory Sample.id)
          (store_after (run_ops Sample.ops) ∅) = Ok h
        /\ (length h <= 10)%nat)
  /\ (exists h h',
        result_of (getConversationHistory Sample.id)
          (store_after (run_ops Sample.ops) ∅) = Ok h
        /\ result_of (getConversationHistory Sample.id)
             (store_after
                (addToConversationHistory Sample.id (lit "user") (lit "more")
                   (lit "t"))
                (store_after (run_ops Sample.ops) ∅)) = Ok h'
        /\ h' = drop (length h + 1 - 10)
                  (h ++ [mkTurn (lit "user") (lit "more") (lit "t")])
        /\ (length h' <= 10)%nat
        /\ last h' = Some (mkTurn (lit "user") (lit "more") (lit "t"))).
Proof.
  assert (H0 : forall id h,
             result_of (getConversationHistory id) ∅ = Ok h ->
             (length h <= 10)%nat).
  { intros id h. rewrite result_of_get. unfold stored.
    rewrite lookup_empty. intros [= <-]. cbn. lia. }
  split; [exact H0 |].
  destruct (history_length_invariant ∅ Sample.ops H0) as [Hall Happend].
  split.
  - exact (Hall Sample.id).
  - exact (Happend Sample.id (lit "user") (lit "more") (lit "t")).
Defined.

Lemma clear_idempotent_witness :
  (∅ : gmap (list N) (list Turn)) !! Sample.id = None
  /\ clearConversationHistory Sample.id ∅ = (Ok tt, ∅)
  /\ result_of (getConversationHistory Sample.id)
       (store_after (clearConversationHistory Sample.id)
          (store_after (run_ops Sample.ops) ∅)) = Ok [].
Proof.
  split; [apply lookup_empty |]. split.
  - apply (clear_idempotent ∅ Sample.id). apply lookup_empty.
  - apply (clear_idempotent (store_after (run_ops Sample.ops) ∅) Sample.id).
Defined.

Lemma get_never_mutates_witness :
  ((∅ : gmap (list N) (list Turn)) !! Sample.id = None
   /\ result_of (getConversationHistory Sample.id) ∅ = Ok []
   /\ store_after (getConversationHistory Sample.id) ∅ = ∅)
  /\ ((<[Sample.id := [mkTurn (lit "user") (lit "hi") (lit "t")]]> ∅
         : gmap (list N) (list Turn)) !! Sample.id
      = Some [mkTurn (lit "user") (lit "hi") (lit "t")]
      /\ result_of (getConversationHistory Sample.id)
           (<[Sample.id := [mkTurn (lit "user") (lit "hi") (lit "t")]]> ∅)
         = Ok [mkTurn (lit "user") (lit "hi") (lit "t")]).
Proof.
  split.
  - destruct (get_never_mutates ∅ Sample.id) as (Hsame & Hnone & _).
    split; [apply lookup_empty |]. split; [| exact Hsame].
    apply Hnone, lookup_empty.
  - split; [apply lookup_insert_eq |].
    apply (get_never_mutates
             (<[Sample.id := [mkTurn (lit "user") (lit "hi") (lit "t")]]> ∅)
             Sample.id).
    apply lookup_insert_eq.
Defined.


Lemma warehouse_failure_keeps_user_turn_witness :
  let s1 : gmap (list N) (list Turn) :=
    store_after
      (addToConversationHistory Sample.id (lit "user") (lit "hi") (lit "t0"))
      ∅ in
  result_of (runBigQuery unit Sample.failing_warehouse (lit "SELECT 1")) s1
  = Throw (mkError (lit "Not found: Table"))
  /\ processMessage (lit "proj") (lit "gemini") (lit "Susi") Sample.catalog
       unit (fun _ => lit "[]") Sample.failing_warehouse (lit "hi") Sample.id ∅
     = (Throw (mkError (lit "Not found: Table")), s1)
  /\ exists earlier,
       result_of (getConversationHistory Sample.id) s1
       = Ok (earlier ++ [mkTurn (lit "user") (lit "hi") (lit "t0")]).
Proof.
  intros s1.
  destruct (buildPrompt_run (lit "proj") Sample.catalog (lit "hi") Sample.id s1)
    as (prompt & Hrun & _).
  assert (H1 : result_of
                 (buildPrompt (lit "proj") Sample.catalog (lit "hi") Sample.id)
                 s1 = Ok prompt)
    by (unfold result_of; rewrite Hrun; reflexivity).
  assert (H2 : result_of
                 (getSQLFromGemini (lit "gemini") (lit "Susi") unit
                    Sample.failing_warehouse prompt) s1
               = Ok (lit "SELECT 1"))
    by (vm_compute; reflexivity).
  assert (H3 : result_of
                 (runBigQuery unit Sample.failing_warehouse (lit "SELECT 1")) s1
               = Throw (mkError (lit "Not found: Table")))
    by reflexivity.
  split; [exact H3 |].
  destruct (warehouse_failure_keeps_user_turn
              (lit "proj") (lit "gemini") (lit "Susi") Sample.catalog
              (fun _ => lit "[]") (lit "TypeError")
              Sample.failing_warehouse (lit "hi") Sample.id prompt
              (lit "SELECT 1") (mkError (lit "Not found: Table")) ∅
              H1 H2 H3) as (Hthrow & Hlast & _).
  split; [exact Hthrow | exact Hlast].
Defined.

Lemma buildPrompt_deterministic_witness :
  result_of (getConversationHistory Sample.id)
    (store_after (run_ops Sample.dialogue) ∅)
  = result_of (getConversationHistory (lit "c9"))
      (<[lit "c9" := appended Sample.id Sample.dialogue]> ∅)
  /\ exists prompt,
       buildPrompt (lit "proj") Sample.catalog (lit "And this month?")
         Sample.id (store_after (run_ops Sample.dialogue) ∅)
       = (Ok prompt, store_after (run_ops Sample.dialogue) ∅)
       /\ buildPrompt (lit "proj") Sample.catalog (lit "And this month?")
            (lit "c9") (<[lit "c9" := appended Sample.id Sample.dialogue]> ∅)
          = (Ok prompt, <[lit "c9" := appended Sample.id Sample.dialogue]> ∅).
Proof.
  assert (H : result_of (getConversationHistory Sample.id)
                (store_after (run_ops Sample.dialogue) ∅)
              = result_of (getConversationHistory (lit "c9"))
                  (<[lit "c9" := appended Sample.id Sample.dialogue]> ∅))
    by (vm_compute; reflexivity).
  split; [exact H |].
  exact (buildPrompt_deterministic (lit "proj") Sample.catalog
           (lit "And this month?") Sample.id (lit "c9") _ _ H).
Defined.

Lemma buildPrompt_renders_witness :
  exists prompt,
    result_of
      (buildPrompt (lit "proj") Sample.catalog (lit "And this month?")
         Sample.id)
      (store_after (run_ops Sample.dialogue) ∅) = Ok prompt
    /\ contains
         (lit "    Table: `proj.sales.monthly_sales`" ++ nl
            ++ nl ++ lit "    Table schema:"
            ++ nl ++ lit "    *   date (DATE)"
            ++ nl ++ lit "    *   region (STRING)"
            ++ nl ++ lit "    *   total_sale (FLOAT64)")
         prompt
    /\ contains
         (lit "User: How much did we sell last month?"
            ++ nl ++ lit "Assistant: 45230 in total.")
         prompt.
Proof.
  destruct (buildPrompt_renders (lit "proj") Sample.catalog
              (lit "And this month?") Sample.id
              (store_after (run_ops Sample.dialogue) ∅))
    as (prompt & Hrun & Htables & Hhistory).
  exists prompt. split; [exact Hrun |]. split.
  - apply (Htables
             (mkTable (lit "sales") (lit "monthly_sales")
                [mkColumn (lit "date") (lit "DATE");
                 mkColumn (lit "region") (lit "STRING");
                 mkColumn (lit "total_sale") (lit "FLOAT64")])).
    unfold Sample.catalog. set_solver.
  - refine (Hhistory (appended Sample.id Sample.dialogue) _ _).
    + vm_compute. reflexivity.
    + discriminate.
Defined.

(** ** Worked examples *)

Example extractSql_select_1 :
  extractSql (lit "```sql" ++ [10] ++ lit "SELECT 1" ++ [10] ++ lit "```")
  = lit "SELECT 1".
Proof. vm_compute. reflexivity. Qed.

Example extractSql_first_block :
  extractSql (lit "```sql" ++ [10] ++ lit "SELECT 1" ++ [10] ++ lit "```"
              ++ [10] ++ lit "or" ++ [10]
              ++ lit "```sql" ++ [10] ++ lit "SELECT 2" ++ [10] ++ lit "```")
  = lit "SELECT 1".
Proof. vm_compute. reflexivity. Qed.

Example extractSql_unclosed :
  extractSql (lit "```sql" ++ [10] ++ lit "SELECT 1" ++ [10])
  = lit "```sql" ++ [10] ++ lit "SELECT 1".
Proof. vm_compute. reflexivity. Qed.

Example eleventh_turn_evicts_first :
  result_of (getConversationHistory Sample.id)
    (store_after (run_ops Sample.ops) ∅)
  = Ok (appended Sample.id
          [Sample.turn 2; Sample.turn 3; Sample.turn 4; Sample.turn 5;
           Sample.turn 6; Sample.turn 7; Sample.turn 8; Sample.turn 9;
           Sample.turn 0; Sample.turn 1]).
Proof. vm_compute. reflexivity. Qed.

(** * Further properties *)

(** ** The store, one conversation beside another *)

Lemma store_after_add (id r c t : jsstring) (s : Store) :
  store_after (addToConversationHistory id r c t) s
  = <[id := keep_last 10 (stored s id ++ [mkTurn r c t])]> s.
Proof. unfold store_after. rewrite addToConversationHistory_run. reflexivity. Qed.

Lemma store_after_run_ops_cons (op : Op) (ops : list Op) (s : Store) :
  store_after (run_ops (op :: ops)) s
  = store_after (run_ops ops) (store_after (run_op op) s).
Proof. unfold store_after at 1 2. rewrite run_ops_cons. reflexivity. Qed.

Lemma run_op_frame (op : Op) (s : Store) (id : jsstring) :
  target op <> id -> store_after (run_op op) s !! id = s !! id.
Proof.
  destruct op as [id' r c t | id']; cbn [target run_op]; intros Hne.
  - rewrite store_after_add. apply lookup_insert_ne. exact Hne.
  - unfold store_after. rewrite clearConversationHistory_run. cbn [snd].
    apply lookup_delete_ne. exact Hne.
Qed.

Lemma run_ops_frame (ops : list Op) (s : Store) (id : jsstring) :
  (forall op, op ∈ ops -> target op <> id) ->
  store_after (run_ops ops) s !! id = s !! id.
Proof.
  revert s. induction ops as [| op ops IH]; intros s Hops; [reflexivity |].
  rewrite store_after_run_ops_cons, IH.
  - apply run_op_frame. apply Hops. left.
  - intros o Ho. apply Hops. right. exact Ho.
Qed.

(** X1.  An append to, or a clear of, one conversation leaves the entry
    of every other conversation as it was. *)
Theorem other_conversations_untouched (id other r c t : jsstring)
    (s : Store) :
  id <> other ->
  store_after (addToConversationHistory id r c t) s !! other = s !! other
  /\ store_after (clearConversationHistory id) s !! other = s !! other.
Proof.
  intros Hne. split.
  - apply (run_op_frame (Append id r c t)). exact Hne.
  - apply (run_op_frame (Clear id)). exact Hne.
Qed.

Lemma other_conversations_untouched_witness :
  Sample.id <> lit "c2"
  /\ store_after
       (addToConversationHistory Sample.id (lit "user") (lit "hi") (lit "t"))
       (store_after (run_ops Sample.ops) ∅) !! lit "c2"
     = store_after (run_ops Sample.ops) ∅ !! lit "c2".
Proof.
  assert (Hne : Sample.id <> lit "c2") by discriminate.
  split; [exact Hne |].
  exact (proj1 (other_conversations_untouched Sample.id (lit "c2")
                  (lit "user") (lit "hi") (lit "t") _ Hne)).
Defined.

(** X2.  An append never throws and leaves an entry for its
    conversation, whatever the Map held: the entry has one turn more than
    before, but never more than 10, also when more than 10 were stored. *)
Theorem append_creates_bounded_entry (id r c t : jsstring) (s : Store) :
  exists before after,
    result_of (getConversationHistory id) s = Ok before
    /\ result_of (addToConversationHistory id r c t) s = Ok tt
    /\ store_after (addToConversationHistory id r c t) s !! id = Some after
    /\ length after = Nat.min (length before + 1) 10.
Proof.
  exists (stored s id), (keep_last 10 (stored s id ++ [mkTurn r c t])).
  split; [apply result_of_get |]. split.
  { unfold result_of. rewrite addToConversationHistory_run. reflexivity. }
  split.
  - rewrite store_after_add. apply lookup_insert_eq.
  - rewrite keep_last_length, length_app. reflexivity.
Qed.

(** X3.  An append to a conversation without entry starts its history
    with that one turn; so does an append that follows a clear, whatever
    the conversation held before the clear. *)
Theorem history_restarts (id r c t : jsstring) (s : Store) :
  (s !! id = None ->
   result_of (getConversationHistory id)
     (store_after (addToConversationHistory id r c t) s)
   = Ok [mkTurn r c t])
  /\ result_of (getConversationHistory id)
       (store_after (addToConversationHistory id r c t)
          (store_after (clearConversationHistory id) s))
     = Ok [mkTurn r c t].
Proof.
  assert (Hfresh : forall s0 : Store,
             s0 !! id = None ->
             result_of (getConversationHistory id)
               (store_after (addToConversationHistory id r c t) s0)
             = Ok [mkTurn r c t]).
  { intros s0 Hnone. rewrite result_of_get, store_after_add, stored_insert.
    destruct (decide (id = id)); [| contradiction].
    unfold stored. rewrite Hnone. reflexivity. }
  split; [apply Hfresh |].
  apply Hfresh. unfold store_after. rewrite clearConversationHistory_run.
  apply lookup_delete_eq.
Qed.

Lemma history_restarts_witness :
  (∅ : gmap (list N) (list Turn)) !! Sample.id = None
  /\ result_of (getConversationHistory Sample.id)
       (store_after
          (addToConversationHistory Sample.id (lit "user") (lit "hi") (lit "t"))
          ∅)
     = Ok [mkTurn (lit "user") (lit "hi") (lit "t")].
Proof.
  split; [apply lookup_empty |].
  exact (proj1 (history_restarts Sample.id (lit "user") (lit "hi") (lit "t")
                  ∅) (lookup_empty _)).
Defined.

(** ** What the SQL extraction returns *)

Section ExtractFacts.
Import Regex.

Lemma trimStart_blank (s : jsstring) :
  Forall (fun c => isWhiteSpace c = true) s -> trimStart s = [].
Proof.
  induction 1 as [| c s Hc _ IH]; [reflexivity |].
  cbn [trimStart]. rewrite Hc. exact IH.
Qed.

Lemma trimStart_fixed (s : jsstring) :
  (forall c rest, s = c :: rest -> isWhiteSpace c = false) -> trimStart s = s.
Proof.
  destruct s as [| c s]; [reflexivity |]. intros Hhead.
  cbn [trimStart]. rewrite (Hhead c s eq_refl). reflexivity.
Qed.

Lemma trim_idempotent (s : jsstring) : trim (trim s) = trim s.
Proof.
  destruct (trim_spec s) as (_ & _ & _ & _ & _ & Hhead & Hlast).
  unfold trim at 1. rewrite (trimStart_fixed _ Hhead).
  unfold trimEnd. rewrite trimStart_fixed; [apply rev_involutive |].
  intros c rest Hrev. apply (Hlast c (rev rest)).
  apply (f_equal (@rev N)) in Hrev.
  rewrite rev_involutive in Hrev. exact Hrev.
Qed.

Lemma trim_contained (s : jsstring) : contains (trim s) s.
Proof.
  destruct (trim_spec s) as (before & after & Hs & _).
  exists before, after. exact Hs.
Qed.

Lemma lazyThen_complete (a b : jsstring) :
  lazyThen fence (a ++ fence ++ b) <> None.
Proof.
  induction a as [| c a IH].
  - cbn [app]. destruct (fence ++ b) as [| c s] eqn:Hs; [discriminate |].
    cbn [lazyThen]. rewrite <- Hs.
    rewrite (proj2 (literal_fence (fence ++ b) b) eq_refl). discriminate.
  - cbn [app lazyThen].
    destruct (literal fence (c :: a ++ fence ++ b)); [discriminate |].
    destruct (lazyThen fence (a ++ fence ++ b)); [discriminate | contradiction].
Qed.

(** Where an opening line is followed by a fence, the pattern matches. *)
Lemma sqlMatch_complete (pre tag body post : jsstring) :
  tag ∈ sql_tags ->
  sqlMatch (pre ++ opening_line tag ++ body ++ fence ++ post) <> None.
Proof.
  intros Htag. induction pre as [| c pre IH].
  - cbn [app].
    assert (Hlit : literal opening (opening_line tag ++ body ++ fence ++ post)
                   = Some (body ++ fence ++ post)).
    { apply literal_opening. exists tag. split; [exact Htag | reflexivity]. }
    pose proof (lazyThen_complete body post) as Hlazy.
    destruct (opening_line tag ++ body ++ fence ++ post) as [| c s];
      cbn [sqlMatch]; unfold matchHere; rewrite Hlit;
      destruct (lazyThen fence (body ++ fence ++ post));
      try discriminate; contradiction.
  - cbn [app sqlMatch].
    destruct (matchHere _); [discriminate | exact IH].
Qed.

Lemma lazyThen_minimal (s group1 : jsstring) :
  lazyThen fence s = Some group1 ->
  forall j, (j < length group1)%nat -> ~ occurs_at fence s j.
Proof.
  revert group1. induction s as [| c s IH]; intros group1.
  - cbn [lazyThen]. destruct (literal fence []); [| discriminate].
    intros [= <-] j Hj. cbn in Hj. lia.
  - cbn [lazyThen].
    destruct (literal fence (c :: s)) as [r |] eqn:Hlit.
    + intros [= <-] j Hj. cbn in Hj. lia.
    + destruct (lazyThen fence s) as [g |] eqn:Hlazy; [| discriminate].
      intros [= <-] j Hj Hocc. destruct j as [| j].
      * destruct (proj1 (occurs_at_0 _ _) Hocc) as [r Hr].
        apply literal_fence in Hr. congruence.
      * apply occurs_at_S in Hocc. apply (IH g eq_refl j); [| exact Hocc].
        cbn in Hj. lia.
Qed.

(** The group of a match holds no fence. *)
Lemma sqlMatch_group_no_fence (s group1 : jsstring) :
  sqlMatch s = Some group1 -> ~ contains fence group1.
Proof.
  assert (Hhere : forall t, matchHere t = Some group1 ->
                            ~ contains fence group1).
  { intros t. unfold matchHere.
    destruct (literal opening t) as [r |]; [| discriminate].
    intros Hlazy (x & y & Hg).
    destruct (lazyThen_Some _ _ Hlazy) as [post ->].
    apply (lazyThen_minimal _ _ Hlazy (length x)).
    - rewrite Hg, !length_app. rewrite fence_units. cbn [length]. lia.
    - unfold occurs_at. rewrite Hg, <- !app_assoc, drop_app_length.
      exists (y ++ fence ++ post). reflexivity. }
  induction s as [| c s IH]; cbn [sqlMatch].
  - destruct (matchHere []) eqn:Hm; [| discriminate].
    intros [= ->]. exact (Hhere _ Hm).
  - destruct (matchHere (c :: s)) eqn:Hm.
    + intros [= ->]. exact (Hhere _ Hm).
    + exact IH.
Qed.

Lemma sqlMatch_of_contained (s t : jsstring) :
  contains s t -> sqlMatch t = None -> sqlMatch s = None.
Proof.
  intros (before & after & ->) Hnone.
  destruct (sqlMatch s) as [g |] eqn:Hs; [| reflexivity].
  apply sqlMatch_Some in Hs as (pre & tag & post & Htag & ->).
  exfalso.
  apply (sqlMatch_complete (before ++ pre) tag g (post ++ after) Htag).
  rewrite <- Hnone. f_equal. rewrite <- !app_assoc. reflexivity.
Qed.

Lemma sqlMatch_no_fence (s : jsstring) :
  ~ contains fence s -> sqlMatch s = None.
Proof.
  intros Hno. destruct (sqlMatch s) as [g |] eqn:Hs; [| reflexivity].
  apply sqlMatch_Some in Hs as (pre & tag & post & _ & ->).
  exfalso. apply Hno.
  exists (pre ++ opening_line tag ++ g), post.
  rewrite <- !app_assoc. reflexivity.
Qed.

End ExtractFacts.

(** X5.  What [extractSql] returns is a contiguous part of the reply,
    and it neither starts nor ends with white space. *)
Theorem extractSql_part_of_reply (reply : jsstring) :
  contains (extractSql reply) reply
  /\ (forall c rest, extractSql reply = c :: rest -> isWhiteSpace c = false)
  /\ (forall c rest, extractSql reply = rest ++ [c] -> isWhiteSpace c = false).
Proof.
  unfold extractSql.
  destruct (Regex.sqlMatch reply) as [group1 |] eqn:Hm.
  - destruct (trim_spec group1) as (_ & _ & _ & _ & _ & Hhead & Hlast).
    split; [| split; assumption].
    apply (contains_trans _ group1); [apply trim_contained |].
    apply sqlMatch_Some in Hm as (pre & tag & post & _ & ->).
    exists (pre ++ opening_line tag), (Regex.fence ++ post).
    rewrite <- !app_assoc. reflexivity.
  - destruct (trim_spec reply) as (_ & _ & _ & _ & _ & Hhead & Hlast).
    split; [apply trim_contained | split; assumption].
Qed.

Lemma extractSql_part_of_reply_witness :
  extractSql Sample.fenced_reply = lit "SELECT 1"
  /\ isWhiteSpace 83 = false
  /\ isWhiteSpace 49 = false.
Proof.
  assert (H : extractSql Sample.fenced_reply = lit "SELECT 1")
    by (vm_compute; reflexivity).
  split; [exact H |].
  destruct (extractSql_part_of_reply Sample.fenced_reply)
    as (_ & Hhead & Hlast).
  split.
  - exact (Hhead 83 (lit "ELECT 1") H).
  - exact (Hlast 49 (lit "SELECT ") H).
Defined.

(** X6.  Extraction is idempotent: applied to its own result it returns
    it unchanged.  When the reply holds an opening line that a fence
    follows, the result holds no fence. *)
Theorem extractSql_idempotent (reply : jsstring) :
  extractSql (extractSql reply) = extractSql reply
  /\ (forall pre tag body post,
        tag ∈ sql_tags ->
        reply = pre ++ opening_line tag ++ body ++ Regex.fence ++ post ->
        ~ contains Regex.fence (extractSql reply)).
Proof.
  split.
  - unfold extractSql at 2 3.
    destruct (Regex.sqlMatch reply) as [group1 |] eqn:Hm.
    + unfold extractSql. rewrite sqlMatch_no_fence; [apply trim_idempotent |].
      intros Hfence. apply (sqlMatch_group_no_fence _ _ Hm).
      exact (contains_trans _ _ _ Hfence (trim_contained group1)).
    + unfold extractSql.
      rewrite (sqlMatch_of_contained _ _ (trim_contained reply) Hm).
      apply trim_idempotent.
  - intros pre tag body post Htag -> Hfence. unfold extractSql in Hfence.
    destruct (Regex.sqlMatch _) as [group1 |] eqn:Hm.
    + apply (sqlMatch_group_no_fence _ _ Hm).
      exact (contains_trans _ _ _ Hfence (trim_contained group1)).
    + exact (sqlMatch_complete pre tag body post Htag Hm).
Qed.

Lemma extractSql_idempotent_witness :
  lit "SQL" ∈ sql_tags
  /\ ~ contains Regex.fence (extractSql Sample.fenced_reply).
Proof.
  assert (Htag : lit "SQL" ∈ sql_tags) by (unfold sql_tags; set_solver).
  split; [exact Htag |].
  exact (proj2 (extractSql_idempotent Sample.fenced_reply)
           (lit "Here you go:" ++ [10]) (lit "SQL")
           (lit "  SELECT 1" ++ [10]) ([10] ++ lit "Done.") Htag eq_refl).
Defined.

(** X7.  A reply in which no fence is directly followed by the tag
    [sql] and a line feed is returned whole, trimmed, with any fences it
    holds: so is a block whose tag is followed by a carriage return or a
    space, an untagged block, a block of another language. *)
Theorem extractSql_without_opening_line (reply : jsstring) :
  (forall i tag, tag ∈ sql_tags -> ~ occurs_at (opening_line tag) reply i) ->
  extractSql reply = trim reply.
Proof.
  intros Hno. unfold extractSql.
  destruct (Regex.sqlMatch reply) as [group1 |] eqn:Hm; [| reflexivity].
  apply sqlMatch_Some in Hm as (pre & tag & post & Htag & ->).
  exfalso. apply (Hno (length pre) tag Htag).
  unfold occurs_at. rewrite drop_app_length.
  exists (group1 ++ Regex.fence ++ post). reflexivity.
Qed.

(** X8.  A reply of white space only, the empty reply among them, gives
    the empty string. *)
Theorem extractSql_blank (reply : jsstring) :
  Forall (fun c => isWhiteSpace c = true) reply -> extractSql reply = [].
Proof.
  intros Hblank. unfold extractSql. rewrite sqlMatch_no_fence.
  - unfold trim. rewrite (trimStart_blank _ Hblank). reflexivity.
  - intros (x & y & ->). rewrite fence_units in Hblank.
    apply Forall_app in Hblank as [_ Hblank].
    apply Forall_app in Hblank as [Hblank _].
    apply Forall_cons in Hblank as [Hblank _]. discriminate Hblank.
Qed.

Lemma extractSql_blank_witness :
  Forall (fun c => isWhiteSpace c = true) [32; 10; 9; 13; 160]
  /\ extractSql [32; 10; 9; 13; 160] = [].
Proof.
  assert (H : Forall (fun c => isWhiteSpace c = true) [32; 10; 9; 13; 160])
    by (repeat constructor).
  split; [exact H | exact (extractSql_blank _ H)].
Defined.

Lemma occurs_at_inside (pat s : jsstring) (i : nat) :
  occurs_at pat s i -> (0 < length pat)%nat -> (i < length s)%nat.
Proof.
  intros Hocc Hpat. destruct (decide (i < length s)%nat) as [| Hge]; [assumption |].
  unfold occurs_at in Hocc. rewrite drop_ge in Hocc by lia.
  apply prefix_nil_inv in Hocc. subst pat. cbn in Hpat. lia.
Qed.

Lemma extractSql_without_opening_line_witness :
  (forall i tag, tag ∈ sql_tags ->
                 ~ occurs_at (opening_line tag) More.crlf_reply i)
  /\ extractSql More.crlf_reply = More.crlf_reply.
Proof.
  assert (H : forall i tag, tag ∈ sql_tags ->
                            ~ occurs_at (opening_line tag) More.crlf_reply i).
  { intros i tag Htag.
    destruct (decide (i < length More.crlf_reply)%nat) as [Hi | Hge].
    - revert tag Htag. apply Forall_forall. revert i Hi.
      apply below_all. unfold occurs_at. compute_done.
    - intros Hocc. apply Hge, (occurs_at_inside _ _ _ Hocc).
      unfold opening_line. rewrite !length_app. cbn [length]. lia. }
  split; [exact H |].
  exact (extractSql_without_opening_line More.crlf_reply H).
Defined.

(** ** Chat requests, step by step *)

Lemma join_ends (sep x : jsstring) (parts : list jsstring) :
  exists before, join sep (parts ++ [x]) = before ++ x.
Proof.
  induction parts as [| p parts [before IH]].
  - exists []. reflexivity.
  - exists (p ++ sep ++ before). cbn [app].
    destruct parts as [| q parts]; cbn [app join] in *;
      rewrite <- !app_assoc; do 2 f_equal; exact IH.
Qed.

Lemma rulesAndExamples_ends :
  exists before,
    rulesAndExamples = before ++ lit "**Question:** " ++ dquote.
Proof.
  exists (take (length rulesAndExamples - 15) rulesAndExamples).
  vm_compute. reflexivity.
Qed.

Section PipelineFacts.

Context (PROJECT_ID GEMINI_MODEL AGENT_NAME : jsstring).
Context (allTableSchemas : list Table).
Context {Rows : Type} (JSON_stringify : Rows -> jsstring).
Context (typeErrorMessage : jsstring).

Local Abbreviation buildPrompt_ := (buildPrompt PROJECT_ID allTableSchemas).
Local Abbreviation getSQLFromGemini_ :=
  (getSQLFromGemini GEMINI_MODEL AGENT_NAME Rows).
Local Abbreviation runBigQuery_ := (runBigQuery Rows).
Local Abbreviation formatBigQueryResult_ :=
  (formatBigQueryResult GEMINI_MODEL AGENT_NAME Rows JSON_stringify).
Local Abbreviation processMessage_ :=
  (processMessage PROJECT_ID GEMINI_MODEL AGENT_NAME allTableSchemas
     Rows JSON_stringify).
Local Abbreviation chatBot_ :=
  (chatBot PROJECT_ID GEMINI_MODEL AGENT_NAME allTableSchemas
     Rows JSON_stringify typeErrorMessage).
Local Abbreviation handle_ :=
  (handle PROJECT_ID GEMINI_MODEL AGENT_NAME allTableSchemas
     Rows JSON_stringify typeErrorMessage).
Local Abbreviation serve_ :=
  (serve PROJECT_ID GEMINI_MODEL AGENT_NAME allTableSchemas
     Rows JSON_stringify typeErrorMessage).
Local Abbreviation failure_text e :=
  (lit "An error occurred while processing your request: "
   ++ error_message e).

Lemma chatBot_of_processMessage (out : Outside Rows) (body : ChatBody)
    (m : Message) (s : Store) :
  body_message body = Some m ->
  chatBot_ out body s
  = match processMessage_ out (text m)
            (or_default (body_conversationId body)) s with
    | (Ok replyText, s') =>
        (Ok (ChatReply replyText (or_default (body_conversationId body))), s')
    | (Throw e, s') => (Ok (ChatFailure (failure_text e)), s')
    end.
Proof.
  intros Hmsg.
  assert (Hread : read_message_text typeErrorMessage body s = (Ok (text m), s))
    by (unfold read_message_text; rewrite Hmsg; reflexivity).
  unfold chatBot, try_catch. rewrite (bind_ok _ _ _ _ _ Hread).
  unfold bind at 1.
  destruct (processMessage_ out (text m) _ s) as [[replyText | e] s'];
    reflexivity.
Qed.

(** X9.  A chat request with a message always appends the user turn,
    stamped with the first reading of the clock.  Then either it answers
    with status 200, and has appended after it one assistant turn whose
    content is the text of the answer; or it answers with status 500 and
    the text of an error, and has appended nothing else. *)
Theorem chat_outcome (out : Outside Rows) (body : ChatBody) (m : Message)
    (s : Store) :
  body_message body = Some m ->
  let id := or_default (body_conversationId body) in
  let s1 := store_after
              (addToConversationHistory id (lit "user") (text m)
                 (clock Rows out 0)) s in
  (exists answer,
      chatBot_ out body s
      = (Ok (ChatReply answer id),
         store_after
           (addToConversationHistory id (lit "assistant") answer
              (clock Rows out 1)) s1)
      /\ status (ChatReply answer id) = 200)
  \/ (exists e,
         chatBot_ out body s = (Ok (ChatFailure (failure_text e)), s1)
         /\ status (ChatFailure (failure_text e)) = 500).
Proof.
  intros Hmsg id s1. rewrite (chatBot_of_processMessage out body m s Hmsg).
  fold id.
  destruct (processMessage_run PROJECT_ID GEMINI_MODEL AGENT_NAME
              allTableSchemas JSON_stringify out (text m) id s)
    as [[e Hrun] | [answer Hrun]]; rewrite Hrun.
  - right. exists e. split; reflexivity.
  - left. exists answer. split; reflexivity.
Qed.

(** X10.  When the model, the warehouse and the model again all answer,
    the chat handler replies with the second answer of the model as it
    came, under the conversation's identifier; the store is the one the
    two appends of an exchange leave, and the history handler then
    returns a history that ends with the question and that answer, with
    its length as count. *)
Theorem successful_chat (out : Outside Rows) (body : ChatBody) (m : Message)
    (prompt sql answer : jsstring) (rows : Rows) (s : Store) :
  body_message body = Some m ->
  let id := or_default (body_conversationId body) in
  let s1 := store_after
              (addToConversationHistory id (lit "user") (text m)
                 (clock Rows out 0)) s in
  let s2 := store_after
              (run_ops
                 (exchange id
                    (text m, clock Rows out 0, answer, clock Rows out 1))) s in
  result_of (buildPrompt_ (text m) id) s1 = Ok prompt ->
  result_of (getSQLFromGemini_ out prompt) s1 = Ok sql ->
  result_of (runBigQuery_ out sql) s1 = Ok rows ->
  result_of (formatBigQueryResult_ out (text m) rows) s1 = Ok answer ->
  chatBot_ out body s = (Ok (ChatReply answer id), s2)
  /\ exists earlier,
       getConversationHistory_endpoint
         (mkHistoryQuery (body_conversationId body)) s2
       = (Ok (HistoryReply id
                (earlier
                   ++ [mkTurn (lit "user") (text m) (clock Rows out 0);
                       mkTurn (lit "assistant") answer (clock Rows out 1)])
                (length earlier + 2)),
          s2).
Proof.
  intros Hmsg id s1 s2 Hprompt Hsql Hrows Hanswer.
  assert (Hs2 : s2 = store_after
                       (addToConversationHistory id (lit "assistant") answer
                          (clock Rows out 1)) s1).
  { subst s2. unfold exchange.
    rewrite !store_after_run_ops_cons. reflexivity. }
  assert (Hrun : processMessage_ out (text m) id s = (Ok answer, s2)).
  { unfold processMessage.
    rewrite (bind_ok _ _ _ _ _ (addToConversationHistory_ok _ _ _ _ s)).
    fold s1.
    destruct (buildPrompt_run PROJECT_ID allTableSchemas (text m) id s1)
      as (p & Hp & _).
    unfold result_of in Hprompt. rewrite Hp in Hprompt.
    injection Hprompt as ->.
    rewrite (bind_ok _ _ _ _ _ Hp).
    pose proof (getSQLFromGemini_run GEMINI_MODEL AGENT_NAME out prompt s1)
      as Hg.
    unfold result_of in Hsql. rewrite Hg in Hsql. cbn [fst] in Hsql.
    rewrite Hsql in Hg. rewrite (bind_ok _ _ _ _ _ Hg).
    assert (Hq : runBigQuery_ out sql s1 = (Ok rows, s1)).
    { unfold result_of, runBigQuery, await in Hrows. cbn [fst] in Hrows.
      unfold runBigQuery, await. rewrite Hrows. reflexivity. }
    rewrite (bind_ok _ _ _ _ _ Hq).
    pose proof (formatBigQueryResult_run GEMINI_MODEL AGENT_NAME
                  JSON_stringify out (text m) rows s1) as Hf.
    rewrite Hanswer in Hf. rewrite (bind_ok _ _ _ _ _ Hf).
    rewrite (bind_ok _ _ _ _ _ (addToConversationHistory_ok _ _ _ _ s1)).
    rewrite Hs2. reflexivity. }
  split.
  - rewrite (chatBot_of_processMessage out body m s Hmsg). fold id.
    rewrite Hrun. reflexivity.
  - exists (keep_last 8 (stored s id)).
    unfold getConversationHistory_endpoint, try_catch.
    cbn [query_conversationId]. fold id.
    rewrite (bind_ok _ _ _ _ _ (getConversationHistory_run s2 id)).
    assert (Hstored : stored s2 id
                      = keep_last 8 (stored s id)
                          ++ [mkTurn (lit "user") (text m) (clock Rows out 0);
                              mkTurn (lit "assistant") answer
                                (clock Rows out 1)]).
    { rewrite Hs2. subst s1. rewrite !stored_after_add.
      rewrite keep_last_absorb, <- app_assoc.
      apply (keep_last_app_short 10). cbn. lia. }
    rewrite Hstored, length_app. reflexivity.
Qed.

(** X11.  A chat request without a message is answered with status 500
    and the message of the TypeError, and appends nothing, whether or not
    it names a conversation. *)
Theorem chat_without_message (out : Outside Rows) (body : ChatBody)
    (s : Store) :
  body_message body = None ->
  chatBot_ out body s
  = (Ok (ChatFailure (failure_text (mkError typeErrorMessage))), s)
  /\ status (ChatFailure (failure_text (mkError typeErrorMessage))) = 500.
Proof.
  intros Hmsg. split; [| reflexivity].
  unfold chatBot, try_catch, bind, read_message_text. rewrite Hmsg.
  reflexivity.
Qed.

(** X12.  The prompt of a chat request is built after the user turn is
    appended, so its context section is never empty: it ends with the
    question as a line of the user, and the question stands once more,
    between double quotes, at the end of the prompt.  When the model fails
    on the request that carries this prompt, [processMessage] throws the
    failure and leaves the user turn appended. *)
Theorem prompt_carries_question (out : Outside Rows)
    (messageText id : jsstring) (s : Store) :
  let s1 := store_after
              (addToConversationHistory id (lit "user") messageText
                 (clock Rows out 0)) s in
  exists prompt,
    result_of (buildPrompt_ messageText id) s1 = Ok prompt
    /\ contains (lit "    ### Previous Conversation Context:") prompt
    /\ contains
         (lit "User: " ++ messageText
            ++ nl ++ lit "    "
            ++ nl ++ lit "    ---")
         prompt
    /\ contains
         (lit "**Question:** " ++ dquote ++ messageText ++ dquote
            ++ nl ++ nl ++ lit "    **SQL Answer:**")
         prompt
    /\ (forall e,
          generateContent Rows out
            (mkGenRequest GEMINI_MODEL prompt
               (Some (mkGenConfig (systemPrompt AGENT_NAME) (2 # 10) 1024)))
          = Throw e ->
          processMessage_ out messageText id s = (Throw e, s1)).
Proof.
  intros s1.
  destruct (buildPrompt_run PROJECT_ID allTableSchemas messageText id s1)
    as (prompt & Hrun & Hprompt).
  exists prompt. split; [unfold result_of; rewrite Hrun; reflexivity |].
  assert (Hstored : stored s1 id
                    = keep_last 9 (stored s id)
                        ++ [mkTurn (lit "user") messageText
                              (clock Rows out 0)]).
  { subst s1. rewrite stored_after_add. apply (keep_last_snoc 10). lia. }
  destruct (join_ends nl
              (renderTurn (mkTurn (lit "user") messageText (clock Rows out 0)))
              (List.map renderTurn (keep_last 9 (stored s id))))
    as [lines Hlines].
  assert (Hcontext :
            conversationContext (stored s1 id)
            = nl ++ lit "    ### Previous Conversation Context:" ++
              nl ++ lit "    " ++ lines ++
              (lit "User: " ++ messageText
                 ++ nl ++ lit "    " ++ nl ++ lit "    ---")
              ++ nl ++ lit "    ").
  { unfold conversationContext. rewrite Hstored.
    assert (Hpos : (0 <? length
                           (keep_last 9 (stored s id)
                              ++ [mkTurn (lit "user") messageText
                                    (clock Rows out 0)]))%nat = true)
      by (apply Nat.ltb_lt; rewrite length_app; cbn [length]; lia).
    rewrite Hpos, map_app. cbn [List.map]. rewrite Hlines.
    unfold renderTurn. cbn [role content].
    rewrite decide_True by reflexivity.
    change (lit "User: ") with (lit "User" ++ lit ": ").
    rewrite <- !app_assoc. reflexivity. }
  destruct rulesAndExamples_ends as [rules Hrules].
  rewrite Hcontext, Hrules in Hprompt.
  split; [| split; [| split]].
  - rewrite Hprompt.
    match goal with
    | |- contains ?x
           (?a ++ ?b ++ ?c ++ ?d ++ ?e ++ ?f ++ ?g ++ ?h ++ (?i ++ ?x ++ ?r)
              ++ ?rest) =>
        exists (a ++ b ++ c ++ d ++ e ++ f ++ g ++ h ++ i), (r ++ rest)
    end.
    rewrite <- !app_assoc. reflexivity.
  - rewrite Hprompt.
    match goal with
    | |- contains ?x
           (?a ++ ?b ++ ?c ++ ?d ++ ?e ++ ?f ++ ?g ++ ?h
              ++ (?i ++ ?j ++ ?k ++ ?l ++ ?m ++ ?x ++ ?r) ++ ?rest) =>
        exists (a ++ b ++ c ++ d ++ e ++ f ++ g ++ h ++ i ++ j ++ k ++ l ++ m),
          (r ++ rest)
    end.
    rewrite <- !app_assoc. reflexivity.
  - rewrite Hprompt.
    match goal with
    | |- contains _
           (?a ++ ?b ++ ?c ++ ?d ++ ?e ++ ?f ++ ?g ++ ?h ++ ?ctx
              ++ (rules ++ _) ++ _ ++ _ ++ _ ++ _ ++ _ ++ ?last) =>
        exists (a ++ b ++ c ++ d ++ e ++ f ++ g ++ h ++ ctx ++ rules), last
    end.
    rewrite <- !app_assoc. reflexivity.
  - intros e Hfail. unfold processMessage.
    rewrite (bind_ok _ _ _ _ _ (addToConversationHistory_ok _ _ _ _ s)).
    fold s1. rewrite (bind_ok _ _ _ _ _ Hrun).
    apply bind_throw.
    rewrite (getSQLFromGemini_run GEMINI_MODEL AGENT_NAME out prompt s1).
    rewrite Hfail. reflexivity.
Qed.

(** X13.  The prompt takes from the history the roles and the contents
    of its turns only: histories that differ in their timestamps alone
    give the same prompt. *)
Theorem prompt_ignores_timestamps (question id1 id2 : jsstring)
    (h1 h2 : list Turn) (s1 s2 : Store) :
  result_of (getConversationHistory id1) s1 = Ok h1 ->
  result_of (getConversationHistory id2) s2 = Ok h2 ->
  List.map (fun msg => (role msg, content msg)) h1
  = List.map (fun msg => (role msg, content msg)) h2 ->
  result_of (buildPrompt_ question id1) s1
  = result_of (buildPrompt_ question id2) s2.
Proof.
  rewrite !result_of_get. intros [= H1] [= H2] Hsame.
  destruct (buildPrompt_run PROJECT_ID allTableSchemas question id1 s1)
    as (p1 & Hp1 & ->).
  destruct (buildPrompt_run PROJECT_ID allTableSchemas question id2 s2)
    as (p2 & Hp2 & ->).
  unfold result_of. rewrite Hp1, Hp2. cbn [fst]. rewrite H1, H2.
  assert (Hrender : List.map renderTurn h1 = List.map renderTurn h2).
  { clear -Hsame. revert h2 Hsame.
    induction h1 as [| a h1 IH]; intros [| b h2] Hsame;
      try discriminate; [reflexivity |].
    cbn [List.map] in *. injection Hsame as Hrole Hcontent Hrest.
    rewrite (IH h2 Hrest). unfold renderTurn.
    rewrite Hrole, Hcontent. reflexivity. }
  assert (Hlen : length h1 = length h2).
  { apply (f_equal (@length _)) in Hsame.
    rewrite !length_map in Hsame. exact Hsame. }
  unfold conversationContext. rewrite Hrender, Hlen. reflexivity.
Qed.

(** Every request is answered, and what it does to the store is a run
    of mutations of the conversation it names. *)
Lemma handle_run (req : Request Rows) (s : Store) :
  exists response ops,
    handle_ req s = (Ok response, store_after (run_ops ops) s)
    /\ (forall op, op ∈ ops -> target op = conversation_of Rows req)
    /\ (forall id h n,
          response = HistoryReply id h n ->
          ops = [] /\ id = conversation_of Rows req
          /\ h = stored s id /\ n = length h).
Proof.
  destruct req as [out body | body | query]; cbn [handle conversation_of].
  - destruct (body_message body) as [m |] eqn:Hmsg.
    + rewrite (chatBot_of_processMessage out body m s Hmsg).
      destruct (processMessage_run PROJECT_ID GEMINI_MODEL AGENT_NAME
                  allTableSchemas JSON_stringify out (text m)
                  (or_default (body_conversationId body)) s)
        as [[e Hrun] | [answer Hrun]]; rewrite Hrun.
      * eexists _, [Append _ (lit "user") (text m) (clock Rows out 0)].
        split; [rewrite store_after_run_ops_cons; reflexivity |].
        split; [| discriminate].
        intros op Hop. apply list_elem_of_singleton in Hop as ->. reflexivity.
      * eexists _, (exchange _ (text m, clock Rows out 0, answer,
                                clock Rows out 1)).
        split; [unfold exchange; rewrite !store_after_run_ops_cons;
                reflexivity |].
        split; [| discriminate].
        intros op Hop. unfold exchange in Hop.
        apply elem_of_cons in Hop as [-> | Hop]; [reflexivity |].
        apply list_elem_of_singleton in Hop as ->. reflexivity.
    + exists (ChatFailure (failure_text (mkError typeErrorMessage))), [].
      split; [| split; [| discriminate]].
      * unfold chatBot, try_catch, bind, read_message_text. rewrite Hmsg.
        reflexivity.
      * intros op Hop. apply elem_of_nil in Hop. contradiction.
  - eexists _, [Clear (or_default (clear_conversationId body))].
    split; [reflexivity |]. split; [| discriminate].
    intros op Hop. apply list_elem_of_singleton in Hop as ->. reflexivity.
  - eexists _, []. split; [| split].
    + unfold getConversationHistory_endpoint, try_catch.
      rewrite (bind_ok _ _ _ _ _ (getConversationHistory_run s _)).
      reflexivity.
    + intros op Hop. apply elem_of_nil in Hop. contradiction.
    + intros id h n [= <- <- <-]. repeat split.
Qed.

(** X14.  No handler lets an exception escape: each request gets a
    response.  And a request changes no entry of the Map but that of the
    conversation it names; a history request changes none at all. *)
Theorem handler_keeps_to_its_conversation (req : Request Rows) (s : Store) :
  exists response,
    result_of (handle_ req) s = Ok response
    /\ (forall id,
          id <> conversation_of Rows req ->
          store_after (handle_ req) s !! id = s !! id)
    /\ (forall query,
          req = GetHistory Rows query -> store_after (handle_ req) s = s).
Proof.
  destruct (handle_run req s) as (response & ops & Hrun & Hops & Hhist).
  exists response. unfold result_of, store_after at 1 2. rewrite Hrun.
  cbn [fst snd]. split; [reflexivity |]. split.
  - intros id Hne. apply run_ops_frame.
    intros op Hop. rewrite (Hops op Hop). congruence.
  - intros query ->. cbn [handle] in Hrun.
    unfold getConversationHistory_endpoint, try_catch in Hrun.
    rewrite (bind_ok _ _ _ _ _ (getConversationHistory_run s _)) in Hrun.
    injection Hrun as _ <-. reflexivity.
Qed.

(** X15.  If no history of the store holds more than 10 turns, as in
    the empty store, then whatever requests are served one after the
    other, each gets its response, no history holds more than 10 turns
    afterwards, and every history response carried the length of its
    history as count, at most 10. *)
Theorem served_histories_bounded (reqs : list (Request Rows)) (s : Store) :
  (forall id h,
      result_of (getConversationHistory id) s = Ok h -> (length h <= 10)%nat) ->
  exists responses,
    result_of (serve_ reqs) s = Ok responses
    /\ length responses = length reqs
    /\ (forall id, exists h,
          result_of (getConversationHistory id) (store_after (serve_ reqs) s)
          = Ok h
          /\ (length h <= 10)%nat)
    /\ (forall id h n,
          HistoryReply id h n ∈ responses ->
          n = length h /\ (n <= 10)%nat).
Proof.
  intros Hs.
  assert (Hb : forall id, (length (stored s id) <= 10)%nat)
    by (intros id; apply (Hs id), result_of_get).
  clear Hs. revert s Hb. induction reqs as [| req reqs IH]; intros s Hb.
  - exists []. split; [reflexivity |]. split; [reflexivity |]. split.
    + intros id. exists (stored s id).
      split; [apply result_of_get | apply Hb].
    + intros id h n Hin. apply elem_of_nil in Hin. contradiction.
  - destruct (handle_run req s) as (response & ops & Hrun & _ & Hhist).
    pose proof (run_ops_bounded ops s Hb) as Hb1.
    destruct (IH _ Hb1) as (responses & Hserve & Hlen & Hbounded & Hcounts).
    assert (Hall : serve_ (req :: reqs) s
                   = (Ok (response :: responses),
                      store_after (serve_ reqs)
                        (store_after (run_ops ops) s))).
    { assert (Hpair : serve_ reqs (store_after (run_ops ops) s)
                      = (Ok responses,
                         store_after (serve_ reqs)
                           (store_after (run_ops ops) s)))
        by (rewrite <- Hserve; apply surjective_pairing).
      cbn [serve]. rewrite (bind_ok _ _ _ _ _ Hrun).
      rewrite (bind_ok _ _ _ _ _ Hpair). reflexivity. }
    exists (response :: responses).
    unfold result_of, store_after at 1. rewrite Hall. cbn [fst snd].
    split; [reflexivity |]. split; [cbn [length]; rewrite Hlen; reflexivity |].
    split; [exact Hbounded |].
    intros id h n Hin. apply elem_of_cons in Hin as [Heq | Hin].
    + destruct (Hhist id h n (eq_sym Heq)) as (_ & _ & -> & ->).
      split; [reflexivity | apply Hb].
    + exact (Hcounts id h n Hin).
Qed.

End PipelineFacts.

(** ** Clearing and asking again *)

(** X16.  After the clear handler, the history handler for the same
    [conversationId] field returns the empty history and the count 0, and
    changes nothing; both echo the identifier they worked on. *)
Theorem clear_then_history (field : option jsstring) (s : Store) :
  exists s',
    clearConversation (mkClearBody field) s
    = (Ok (ClearReply
             (lit "Conversation history cleared for ID: " ++ or_default field)
             (or_default field)), s')
    /\ s' !! or_default field = None
    /\ getConversationHistory_endpoint (mkHistoryQuery field) s'
       = (Ok (HistoryReply (or_default field) [] 0), s').
Proof.
  exists (delete (or_default field) s). split; [reflexivity |].
  split; [apply lookup_delete_eq |].
  unfold getConversationHistory_endpoint, try_catch.
  rewrite (bind_ok _ _ _ _ _ (getConversationHistory_run _ _)).
  cbn [query_conversationId]. rewrite stored_delete.
  destruct (decide (or_default field = or_default field)); [| contradiction].
  reflexivity.
Qed.

(** ** Conversations in which every request succeeds *)

Lemma alternates_tail (a : Turn) (h : list Turn) :
  alternates (a :: h) -> alternates h.
Proof. destruct h as [| b h]; [intros; exact I | intros [_ H]; exact H]. Qed.

Lemma alternates_drop (k : nat) (h : list Turn) :
  alternates h -> alternates (drop k h).
Proof.
  revert h. induction k as [| k IH]; intros h Hh; [rewrite drop_0; exact Hh |].
  destruct h as [| a h]; [exact I |].
  cbn [drop]. apply IH. exact (alternates_tail a h Hh).
Qed.

Lemma appended_exchanges (id : jsstring)
    (xs : list (jsstring * jsstring * jsstring * jsstring)) :
  appended id (flat_map (exchange id) xs)
  = flat_map
      (fun x : jsstring * jsstring * jsstring * jsstring =>
         let '(question, asked, answer, answered) := x in
         [mkTurn (lit "user") question asked;
          mkTurn (lit "assistant") answer answered]) xs.
Proof.
  induction xs as [| [[[q t0] a] t1] xs IH]; [reflexivity |].
  cbn [flat_map exchange app appended].
  destruct (decide (id = id)); [| contradiction].
  rewrite IH. reflexivity.
Qed.

(** X17.  In a conversation that starts without entry and takes only
    exchanges, the two appends of requests that succeed, the stored turns
    are by turns of the user and of the assistant, also once the oldest
    have been discarded; there are [min (2 * n) 10] of them after [n]
    exchanges. *)
Theorem exchanges_alternate (id : jsstring)
    (xs : list (jsstring * jsstring * jsstring * jsstring)) (s : Store) :
  s !! id = None ->
  exists h,
    result_of (getConversationHistory id)
      (store_after (run_ops (flat_map (exchange id) xs)) s) = Ok h
    /\ alternates h
    /\ length h = Nat.min (2 * length xs) 10.
Proof.
  intros Habsent.
  assert (Hempty : stored s id = [])
    by (unfold stored; rewrite Habsent; reflexivity).
  eexists. split.
  { rewrite result_of_get, run_ops_stored; [reflexivity | |].
    - rewrite Hempty. cbn. lia.
    - intros op Hop ->. apply list_elem_of_In, in_flat_map in Hop
        as ([[[q t0] a] t1] & _ & Hop).
      cbn in Hop. destruct Hop as [Hop | [Hop | []]]; discriminate. }
  rewrite Hempty, appended_exchanges. cbn [app]. split.
  - apply alternates_drop.
    induction xs as [| [[[q t0] a] t1] xs IH]; [exact I |].
    cbn [flat_map app]. split; [left; split; reflexivity |].
    destruct xs as [| [[[q' t0'] a'] t1'] xs]; [exact I |].
    split; [right; split; reflexivity | exact IH].
  - rewrite keep_last_length. f_equal.
    induction xs as [| [[[q t0] a] t1] xs IH]; [reflexivity |].
    cbn [flat_map app length]. rewrite IH. lia.
Qed.

(** ** The further properties at sample inputs *)

Lemma chat_outcome_witness :
  body_message More.question
  = Some (mkMessage (lit "How much did we sell last month?"))
  /\ ((exists answer,
          chatBot (lit "proj") (lit "gemini") (lit "Susi") Sample.catalog unit
            (fun _ => lit "[]") (lit "TypeError") More.answering More.question
            ∅
          = (Ok (ChatReply answer Sample.id),
             store_after
               (addToConversationHistory Sample.id (lit "assistant") answer
                  (lit "t1"))
               (store_after
                  (addToConversationHistory Sample.id (lit "user")
                     (lit "How much did we sell last month?") (lit "t0")) ∅))
          /\ status (ChatReply answer Sample.id) = 200)
      \/ (exists e,
            chatBot (lit "proj") (lit "gemini") (lit "Susi") Sample.catalog
              unit (fun _ => lit "[]") (lit "TypeError") More.answering
              More.question ∅
            = (Ok (ChatFailure
                     (lit "An error occurred while processing your request: "
                      ++ error_message e)),
               store_after
                 (addToConversationHistory Sample.id (lit "user")
                    (lit "How much did we sell last month?") (lit "t0")) ∅)
            /\ status
                 (ChatFailure
                    (lit "An error occurred while processing your request: "
                     ++ error_message e)) = 500)).
Proof.
  split; [reflexivity |].
  exact (chat_outcome (lit "proj") (lit "gemini") (lit "Susi") Sample.catalog
           (fun _ => lit "[]") (lit "TypeError") More.answering More.question
           (mkMessage (lit "How much did we sell last month?")) ∅ eq_refl).
Defined.

Lemma successful_chat_witness :
  result_of (runBigQuery unit More.answering (lit "SELECT 1")) ∅ = Ok tt
  /\ chatBot (lit "proj") (lit "gemini") (lit "Susi") Sample.catalog unit
       (fun _ => lit "[]") (lit "TypeError") More.answering More.question ∅
     = (Ok (ChatReply (lit "45230 in total.") Sample.id),
        store_after
          (run_ops
             (exchange Sample.id
                (lit "How much did we sell last month?", lit "t0",
                 lit "45230 in total.", lit "t1"))) ∅).
Proof.
  split; [reflexivity |].
  pose (s1 := store_after
                (addToConversationHistory Sample.id (lit "user")
                   (lit "How much did we sell last month?") (lit "t0"))
                (∅ : gmap (list N) (list Turn))).
  destruct (buildPrompt_run (lit "proj") Sample.catalog
              (lit "How much did we sell last month?") Sample.id s1)
    as (prompt & Hrun & _).
  assert (H1 : result_of
                 (buildPrompt (lit "proj") Sample.catalog
                    (lit "How much did we sell last month?") Sample.id) s1
               = Ok prompt)
    by (unfold result_of; rewrite Hrun; reflexivity).
  assert (H2 : result_of
                 (getSQLFromGemini (lit "gemini") (lit "Susi") unit
                    More.answering prompt) s1 = Ok (lit "SELECT 1"))
    by (vm_compute; reflexivity).
  exact (proj1
           (successful_chat (lit "proj") (lit "gemini") (lit "Susi")
              Sample.catalog (fun _ => lit "[]") (lit "TypeError")
              More.answering More.question
              (mkMessage (lit "How much did we sell last month?"))
              prompt (lit "SELECT 1") (lit "45230 in total.") tt ∅
              eq_refl H1 H2 eq_refl eq_refl)).
Defined.

Lemma chat_without_message_witness :
  body_message (mkChatBody None (Some Sample.id)) = None
  /\ chatBot (lit "proj") (lit "gemini") (lit "Susi") Sample.catalog unit
       (fun _ => lit "[]") (lit "TypeError") More.answering
       (mkChatBody None (Some Sample.id)) ∅
     = (Ok (ChatFailure
              (lit "An error occurred while processing your request: "
               ++ lit "TypeError")), ∅).
Proof.
  split; [reflexivity |].
  exact (proj1
           (chat_without_message (lit "proj") (lit "gemini") (lit "Susi")
              Sample.catalog (fun _ => lit "[]") (lit "TypeError")
              More.answering (mkChatBody None (Some Sample.id)) ∅ eq_refl)).
Defined.

Lemma prompt_carries_question_witness :
  exists prompt,
    result_of
      (buildPrompt (lit "proj") Sample.catalog (lit "hi") Sample.id)
      (store_after
         (addToConversationHistory Sample.id (lit "user") (lit "hi")
            (lit "t0")) ∅) = Ok prompt
    /\ generateContent unit More.silent
         (mkGenRequest (lit "gemini") prompt
            (Some (mkGenConfig (systemPrompt (lit "Susi")) (2 # 10) 1024)))
       = Throw (mkError (lit "Quota exceeded"))
    /\ processMessage (lit "proj") (lit "gemini") (lit "Susi") Sample.catalog
         unit (fun _ => lit "[]") More.silent (lit "hi") Sample.id ∅
       = (Throw (mkError (lit "Quota exceeded")),
          store_after
            (addToConversationHistory Sample.id (lit "user") (lit "hi")
               (lit "t0")) ∅).
Proof.
  destruct (prompt_carries_question (lit "proj") (lit "gemini") (lit "Susi")
              Sample.catalog (fun _ => lit "[]") More.silent (lit "hi")
              Sample.id ∅) as (prompt & Hrun & _ & _ & _ & Hfail).
  exists prompt. split; [exact Hrun |]. split; [reflexivity |].
  exact (Hfail (mkError (lit "Quota exceeded")) eq_refl).
Defined.

Lemma prompt_ignores_timestamps_witness :
  List.map (fun msg => (role msg, content msg))
    [mkTurn (lit "user") (lit "hi") (lit "2024-01-15T10:30:00.000Z")]
  = List.map (fun msg => (role msg, content msg))
      [mkTurn (lit "user") (lit "hi") (lit "2025-06-01T08:00:00.000Z")]
  /\ result_of
       (buildPrompt (lit "proj") Sample.catalog (lit "And now?") Sample.id)
       (<[Sample.id :=
            [mkTurn (lit "user") (lit "hi") (lit "2024-01-15T10:30:00.000Z")]]>
          ∅)
     = result_of
         (buildPrompt (lit "proj") Sample.catalog (lit "And now?") Sample.id)
         (<[Sample.id :=
              [mkTurn (lit "user") (lit "hi")
                 (lit "2025-06-01T08:00:00.000Z")]]> ∅).
Proof.
  split; [reflexivity |].
  apply (prompt_ignores_timestamps (lit "proj") Sample.catalog
           (lit "And now?") Sample.id Sample.id
           [mkTurn (lit "user") (lit "hi") (lit "2024-01-15T10:30:00.000Z")]
           [mkTurn (lit "user") (lit "hi") (lit "2025-06-01T08:00:00.000Z")]).
  - rewrite result_of_get. unfold stored. rewrite lookup_insert_eq. reflexivity.
  - rewrite result_of_get. unfold stored. rewrite lookup_insert_eq. reflexivity.
  - reflexivity.
Defined.

Lemma handler_keeps_to_its_conversation_witness :
  lit "c2" <> conversation_of unit (PostChat unit More.answering More.question)
  /\ store_after
       (handle (lit "proj") (lit "gemini") (lit "Susi") Sample.catalog unit
          (fun _ => lit "[]") (lit "TypeError")
          (PostChat unit More.answering More.question))
       (store_after (run_ops Sample.ops) ∅) !! lit "c2"
     = store_after (run_ops Sample.ops) ∅ !! lit "c2".
Proof.
  assert (Hne : lit "c2"
                <> conversation_of unit
                     (PostChat unit More.answering More.question))
    by discriminate.
  split; [exact Hne |].
  destruct (handler_keeps_to_its_conversation (lit "proj") (lit "gemini")
              (lit "Susi") Sample.catalog (fun _ => lit "[]") (lit "TypeError")
              (PostChat unit More.answering More.question)
              (store_after (run_ops Sample.ops) ∅))
    as (response & _ & Hframe & _).
  exact (Hframe (lit "c2") Hne).
Defined.

Lemma served_histories_bounded_witness :
  (forall id h,
      result_of (getConversationHistory id) ∅ = Ok h -> (length h <= 10)%nat)
  /\ exists responses,
       result_of
         (serve (lit "proj") (lit "gemini") (lit "Susi") Sample.catalog unit
            (fun _ => lit "[]") (lit "TypeError")
            [PostChat unit More.answering More.question;
             GetHistory unit (mkHistoryQuery (Some Sample.id));
             PostClear unit (mkClearBody None)]) ∅ = Ok responses
       /\ length responses = 3%nat
       /\ forall id h n,
            HistoryReply id h n ∈ responses ->
            n = length h /\ (n <= 10)%nat.
Proof.
  assert (H0 : forall id h,
             result_of (getConversationHistory id) ∅ = Ok h ->
             (length h <= 10)%nat).
  { intros id h. rewrite result_of_get. unfold stored.
    rewrite lookup_empty. intros [= <-]. cbn. lia. }
  split; [exact H0 |].
  destruct (served_histories_bounded (lit "proj") (lit "gemini") (lit "Susi")
              Sample.catalog (fun _ => lit "[]") (lit "TypeError")
              [PostChat unit More.answering More.question;
               GetHistory unit (mkHistoryQuery (Some Sample.id));
               PostClear unit (mkClearBody None)] ∅ H0)
    as (responses & Hserve & Hlen & _ & Hcounts).
  exists responses. split; [exact Hserve |]. split; [exact Hlen | exact Hcounts].
Defined.

Lemma exchanges_alternate_witness :
  (∅ : gmap (list N) (list Turn)) !! Sample.id = None
  /\ exists h,
       result_of (getConversationHistory Sample.id)
         (store_after
            (run_ops
               (flat_map (exchange Sample.id)
                  (replicate 6 (lit "q", lit "t0", lit "a", lit "t1")))) ∅)
       = Ok h
       /\ alternates h
       /\ length h = 10%nat.
Proof.
  split; [apply lookup_empty |].
  exact (exchanges_alternate Sample.id
           (replicate 6 (lit "q", lit "t0", lit "a", lit "t1")) ∅
           (lookup_empty _)).
Defined.

(** ** A block whose opening line ends with a carriage return *)

